(** * ifo2mkv: DVD navigation data to Matroska chapter XML

    A shallow embedding of [ifo2mkv.cpp] and the properties of its BCD
    decoder, its frame/timestamp converter, its chapter walker
    ([get_chapters_for_title]), its XML writer and its driver ([main]).

    Conventions.
    - C++ integers are values of [Z]; the wrap-around of [unsigned int] and
      the conversion to [int32_t] are written out ([u32], [to_int32]).
      [int] arithmetic is left unwrapped where the operands are narrow
      promoted values (8 or 16 bit fields), so that it cannot overflow.
    - Arrays behind the pointers of libdvdread's tables are lists; a read
      outside the list is outside what C++ defines and is reported as
      [Undefined].
    - An exception is the outcome [Thrown]; it carries the writer as it was
      when the exception left the function. *)

From Stdlib Require Import ZArith List Lia Bool String Sorted.
Import ListNotations.
Local Open Scope Z_scope.

(** ** Machine integers *)

(** Value of an [unsigned int] (32 bit) expression. *)
Definition u32 (z : Z) : Z := z mod 2 ^ 32.

(** Value of a [uint8_t] expression. *)
Definition u8 (z : Z) : Z := z mod 2 ^ 8.

(** [static_cast<int32_t>] of an unsigned 32-bit value (modular since C++20,
    the standard the Makefile selects). *)
Definition to_int32 (z : Z) : Z :=
  let m := z mod 2 ^ 32 in
  if m <? 2 ^ 31 then m else m - 2 ^ 32.

(** ** Converter and BCD decoder *)

(** The divisor [(fps ? fps : 1)] of [frames_to_timestamp_ms]. *)
Definition fps_divisor (fps : Z) : Z := if fps =? 0 then 1 else fps.

(** [auto factor = fps == 30 ? 1001 : 1000;] *)
Definition fps_factor (fps : Z) : Z := if fps =? 30 then 1001 else 1000.

(** [int32_t frames_to_timestamp_ms(unsigned int num_frames, unsigned int fps)]:
    [factor] is an [int], the product and the quotient are [unsigned int]. *)
Definition frames_to_timestamp_ms (num_frames fps : Z) : Z :=
  let factor := fps_factor fps in
  to_int32 (u32 (factor * num_frames) / fps_divisor fps).

(** [from_bcd<uint8_t>]: the expression is evaluated in [int] and converted
    to the parameter type [T] on return.  Every call in the program has
    [T = uint8_t]. *)
Definition from_bcd (val : Z) : Z :=
  u8 ((Z.shiftr (Z.land val 240) 4) * 10 + Z.land val 15).

(** ** Navigation tables (libdvdread's [ifo_types.h], the fields the program reads)

    Field widths as libdvdread declares them: [dvd_time_t]'s four fields and
    the entries of [program_map] are [uint8_t]; [pgcn], [pgn], [nr_of_ptts]
    and [nr_of_srpts] are [uint16_t]; [title_set_nr] and [vts_ttn] are
    [uint8_t].  A pointer field is modelled by what it points to, an array by
    a list. *)

Record dvd_time_t := {
  hour : Z;
  minute : Z;
  second : Z;
  frame_u : Z   (* the two high bits are the frame rate *)
}.

Record cell_playback_t := { playback_time : dvd_time_t }.

Record pgc_t := {
  program_map : list Z;
  cell_playback : list cell_playback_t
}.

Record pgci_srp_t := { pgc : pgc_t }.

Record pgcit_t := { pgci_srp : list pgci_srp_t }.

Record ptt_info_t := { pgcn : Z; pgn : Z }.

Record ttu_t := { ptt : list ptt_info_t }.

(** [vts_ptt_srpt_t]; its array field is called [title] in C, as is the one
    of [tt_srpt_t]. *)
Record vts_ptt_srpt_t := { ttu : list ttu_t }.

Record title_info_t := {
  nr_of_ptts : Z;
  title_set_nr : Z;
  vts_ttn : Z
}.

Record tt_srpt_t := {
  nr_of_srpts : Z;
  title : list title_info_t
}.

Record ifo_handle_t := {
  tt_srpt : tt_srpt_t;
  vts_ptt_srpt : vts_ptt_srpt_t;
  vts_pgcit : pgcit_t
}.

(** [a[i]] for an [int] index: defined inside the array only. *)
Definition arr_get {A : Type} (a : list A) (i : Z) : option A :=
  if i <? 0 then None else nth_error a (Z.to_nat i).

(** ** Outcomes *)

(** What [libdvdread_exception::what()] was built from. *)
Inductive libdvdread_exception :=
| Failed_to_open_DVD (path : string)  (* "Failed to open DVD structure under {}" *)
| Failed_to_open_IFO (title : Z).     (* "Failed to open IFO for title {}" *)

Inductive outcome (W : Type) :=
| Done (w : W)
| Thrown (ex : libdvdread_exception) (w : W)
| Undefined.
Arguments Done {W} w.
Arguments Thrown {W} ex w.
Arguments Undefined {W}.

(** ** The Writer concept of [get_chapters_for_title] *)

Class Writer (W : Type) := {
  on_title_start : W -> W;
  on_chapter_start : Z -> W -> W;
  on_title_end : W -> W
}.

(** A writer that only records the calls it receives. *)
Inductive writer_call :=
| Title_start
| Chapter_start (timestamp_ms : Z)
| Title_end.

#[export] Instance call_log_writer : Writer (list writer_call) := {
  on_title_start := fun w => w ++ [Title_start];
  on_chapter_start := fun timestamp_ms w => w ++ [Chapter_start timestamp_ms];
  on_title_end := fun w => w ++ [Title_end]
}.

(** The same calls replayed on any writer. *)
Definition replay_call {W} `{Writer W} (c : writer_call) (w : W) : W :=
  match c with
  | Title_start => on_title_start w
  | Chapter_start timestamp_ms => on_chapter_start timestamp_ms w
  | Title_end => on_title_end w
  end.

Definition replay {W} `{Writer W} (cs : list writer_call) (w : W) : W :=
  fold_left (fun w c => replay_call c w) cs w.

(** The timestamps of the chapter-start calls of a log, in order. *)
Fixpoint chapter_timestamps (cs : list writer_call) : list Z :=
  match cs with
  | [] => []
  | Chapter_start t :: cs' => t :: chapter_timestamps cs'
  | _ :: cs' => chapter_timestamps cs'
  end.

(** ** The chapter walker *)

(** [fps = ((dt->frame_u & 0xc0) >> 6) == 1 ? 25 : 30;] *)
Definition cell_fps (dt : dvd_time_t) : Z :=
  if Z.shiftr (Z.land (frame_u dt) 192) 6 =? 1 then 25 else 30.

(** [((dt->frame_u & 0x30) >> 4) * 10 + (dt->frame_u & 0x0f)] *)
Definition frame_field (dt : dvd_time_t) : Z :=
  Z.shiftr (Z.land (frame_u dt) 48) 4 * 10 + Z.land (frame_u dt) 15.

(** One pass through the body of the cell loop: the new [cur_frames] and
    [fps]. *)
Definition cell_body (dt : dvd_time_t) (cur_frames : Z) : Z * Z :=
  let hour := from_bcd (hour dt) in
  let minute := from_bcd (minute dt) in
  let second := from_bcd (second dt) in
  let fps := cell_fps dt in
  let cur_frames := u32 (cur_frames + u32 (((hour * 60 * 60) + minute * 60 + second) * fps)) in
  let cur_frames := u32 (cur_frames + frame_field dt) in
  (cur_frames, fps).

(** [for (auto cur_cell = start_cell; cur_cell <= end_cell; cur_cell++)],
    with [n] the number of passes left, [end_cell + 1 - cur_cell] when that is
    positive. *)
Fixpoint cell_loop (n : nat) (cur_pgc : pgc_t) (cur_cell cur_frames fps : Z)
  : option (Z * Z) :=
  match n with
  | O => Some (cur_frames, fps)
  | S n' =>
      match arr_get (cell_playback cur_pgc) cur_cell with
      | None => None
      | Some cell =>
          let '(cur_frames, fps) := cell_body (playback_time cell) cur_frames in
          cell_loop n' cur_pgc (cur_cell + 1) cur_frames fps
      end
  end.

(** The program chain and the cell a chapter marker names:
    [vts_ptt_srpt->title[ttn - 1].ptt[chapter]], then
    [vts->vts_pgcit->pgci_srp[pgc_id - 1].pgc] and
    [cur_pgc->program_map[pgn - 1]]. *)
Definition marker_at (vts : ifo_handle_t) (ttn chapter : Z) : option ptt_info_t :=
  match arr_get (ttu (vts_ptt_srpt vts)) (ttn - 1) with
  | None => None
  | Some t => arr_get (ptt t) chapter
  end.

Definition marker_pgc (vts : ifo_handle_t) (m : ptt_info_t) : option pgc_t :=
  option_map pgc (arr_get (pgci_srp (vts_pgcit vts)) (pgcn m - 1)).

Definition marker_cell (cur_pgc : pgc_t) (m : ptt_info_t) : option Z :=
  arr_get (program_map cur_pgc) (pgn m - 1).

(** The body of the chapter loop up to the call of the writer: the new
    [overall_frames] and [fps]. *)
Definition chapter_body (vts : ifo_handle_t) (ttn chapter overall_frames fps : Z)
  : option (Z * Z) :=
  match marker_at vts ttn chapter with
  | None => None
  | Some m =>
  match marker_pgc vts m with
  | None => None
  | Some cur_pgc =>
  match marker_cell cur_pgc m with
  | None => None
  | Some c =>
  let start_cell := c - 1 in
  match marker_at vts ttn (chapter + 1) with
  | None => None
  | Some m' =>
  match marker_pgc vts m' with
  | None => None
  | Some cur_pgc =>
  match marker_cell cur_pgc m' with
  | None => None
  | Some c' =>
  let end_cell := c' - 2 in
  let cur_frames := 0 in
  match cell_loop (Z.to_nat (end_cell + 1 - start_cell)) cur_pgc start_cell cur_frames fps with
  | None => None
  | Some (cur_frames, fps) => Some (u32 (overall_frames + cur_frames), fps)
  end end end end end end end.

(** [for (auto chapter = 0; chapter < nr_of_ptts - 1; chapter++)], with [n]
    the number of passes left. *)
Fixpoint chapter_loop {W} `{Writer W} (n : nat) (vts : ifo_handle_t)
    (ttn chapter overall_frames fps : Z) (writer : W) : option W :=
  match n with
  | O => Some writer
  | S n' =>
      match chapter_body vts ttn chapter overall_frames fps with
      | None => None
      | Some (overall_frames, fps) =>
          let writer := on_chapter_start (frames_to_timestamp_ms overall_frames fps) writer in
          chapter_loop n' vts ttn (chapter + 1) overall_frames fps writer
      end
  end.

Section Provider.

(** libdvdread: the reader handle, and [ifoOpen], which yields no handle
    when it fails. *)
Variable dvd_reader_t : Type.
Variable ifoOpen : dvd_reader_t -> Z -> option ifo_handle_t.

(** [ifo_open] throws when [ifoOpen] returns a null pointer. *)
Definition ifo_open (dvd : dvd_reader_t) (title : Z)
  : ifo_handle_t + libdvdread_exception :=
  match ifoOpen dvd title with
  | Some ifo => inl ifo
  | None => inr (Failed_to_open_IFO title)
  end.

Definition get_chapters_for_title {W} `{Writer W} (dvd : dvd_reader_t)
    (vmg : ifo_handle_t) (title_ix : Z) (writer : W) : outcome W :=
  match arr_get (title (tt_srpt vmg)) title_ix with
  | None => Undefined
  | Some ti =>
      match ifo_open dvd (title_set_nr ti) with
      | inr ex => Thrown ex writer
      | inl vts =>
          let writer := on_title_start writer in
          let writer := on_chapter_start 0 writer in
          let ttn := vts_ttn ti in
          let overall_frames := 0 in
          let fps := 0 in
          match chapter_loop (Z.to_nat (nr_of_ptts ti - 1)) vts ttn 0
                             overall_frames fps writer with
          | None => Undefined
          | Some writer => Done (on_title_end writer)
          end
      end
  end.

End Provider.

(** ** The Matroska chapter writer *)

(** What the writer puts on its stream, one constructor per formatted block,
    with the values that fill the block's fields. *)
Inductive xml_item :=
| Xml_prolog                                  (* <?xml ...?> ... <Chapters> *)
| Edition_open (EditionUID : Z)               (* <EditionEntry> ... <EditionUID> *)
| Chapter_atom (ChapterUID hr min sec ms chapter_num : Z)
| Edition_close                               (* </EditionEntry> *)
| Chapters_close.                             (* </Chapters> *)

(** A [std::ostream] is what has been written to it. *)
Definition ostream := list xml_item.

Section Random.

(** [std::mt19937_64]: a state and the draw of the next 64-bit value. *)
Variable mt19937_64 : Type.
Variable rnd_draw : mt19937_64 -> Z * mt19937_64.

Record matroska_chapter_xml_writer := {
  rnd_gen_ : mt19937_64;
  stream_ : ostream;
  chapter_num_ : Z   (* unsigned *)
}.

(** The constructor, on a generator seeded from [std::random_device]. *)
Definition writer_ctor (seeded : mt19937_64) (stream : ostream)
  : matroska_chapter_xml_writer :=
  {| rnd_gen_ := seeded; stream_ := stream ++ [Xml_prolog]; chapter_num_ := 1 |}.

(** The destructor: the stream as the writer leaves it. *)
Definition writer_dtor (w : matroska_chapter_xml_writer) : ostream :=
  stream_ w ++ [Chapters_close].

Definition xml_on_title_start (w : matroska_chapter_xml_writer)
  : matroska_chapter_xml_writer :=
  let '(uid, g) := rnd_draw (rnd_gen_ w) in
  {| rnd_gen_ := g; stream_ := stream_ w ++ [Edition_open uid]; chapter_num_ := 1 |}.

Definition xml_on_title_end (w : matroska_chapter_xml_writer)
  : matroska_chapter_xml_writer :=
  {| rnd_gen_ := rnd_gen_ w; stream_ := stream_ w ++ [Edition_close];
     chapter_num_ := chapter_num_ w |}.

(** [/] and [%] on [int32_t] truncate towards zero. *)
Definition xml_on_chapter_start (timestamp_ms : Z) (w : matroska_chapter_xml_writer)
  : matroska_chapter_xml_writer :=
  let hr := Z.quot timestamp_ms 3600000 in
  let min := Z.rem (Z.quot timestamp_ms 60000) 60 in
  let sec := Z.rem (Z.quot timestamp_ms 1000) 60 in
  let ms := Z.rem timestamp_ms 1000 in
  let '(uid, g) := rnd_draw (rnd_gen_ w) in
  {| rnd_gen_ := g;
     stream_ := stream_ w ++ [Chapter_atom uid hr min sec ms (chapter_num_ w)];
     chapter_num_ := u32 (chapter_num_ w + 1) |}.

#[export] Instance matroska_writer : Writer matroska_chapter_xml_writer := {
  on_title_start := xml_on_title_start;
  on_chapter_start := xml_on_chapter_start;
  on_title_end := xml_on_title_end
}.

(** ** The driver *)

(** The lines [main] and the logger put on [std::cerr]. *)
Inductive diagnostic :=
| Usage (argv0 : string)
| Title_cannot_be_negative
| Could_not_convert (arg : string)
| Title_requested_but_DVD_has (title n : Z)
| DVD_read_error (ex : libdvdread_exception)
| Messages_reported_by_libdvdread.  (* the logger's report when it is destroyed
                                       with reporting still on *)

Record run := {
  exit_status : Z;
  cout : ostream;
  cerr : list diagnostic
}.

Variable dvd_reader_t : Type.
Variable DVDOpen2 : string -> option dvd_reader_t.
Variable ifoOpen : dvd_reader_t -> Z -> option ifo_handle_t.
(** [std::stoi]: the [int] it returns, or nothing when it throws. *)
Variable stoi : string -> option Z.
(** The generator as [std::random_device] seeds it. *)
Variable seeded : mt19937_64.

Definition dvd_open (path : string) : dvd_reader_t + libdvdread_exception :=
  match DVDOpen2 path with
  | Some dvd => inl dvd
  | None => inr (Failed_to_open_DVD path)
  end.

(** [for (auto t = 0u; t < vmg->tt_srpt->nr_of_srpts; ++t)], with [n] the
    number of passes left. *)
Fixpoint titles_loop (n : nat) (dvd : dvd_reader_t) (vmg : ifo_handle_t) (t : Z)
    (writer : matroska_chapter_xml_writer) : outcome matroska_chapter_xml_writer :=
  match n with
  | O => Done writer
  | S n' =>
      match get_chapters_for_title dvd_reader_t ifoOpen dvd vmg (to_int32 t) writer with
      | Done writer => titles_loop n' dvd vmg (u32 (t + 1)) writer
      | stopped => stopped
      end
  end.

(** Leaving the scope of the writer, then the [try] block: the destructor
    closes the document; a caught exception is reported and the logger,
    destroyed on [return 1], reports its messages. *)
Definition leave_scope (o : outcome matroska_chapter_xml_writer) : option run :=
  match o with
  | Done w =>
      Some {| exit_status := 0; cout := writer_dtor w; cerr := [] |}
  | Thrown ex w =>
      Some {| exit_status := 1; cout := writer_dtor w;
              cerr := [DVD_read_error ex; Messages_reported_by_libdvdread] |}
  | Undefined => None
  end.

Definition failed (ds : list diagnostic) : option run :=
  Some {| exit_status := 1; cout := []; cerr := ds |}.

(** The optional [title_no] argument. *)
Definition parse_title (argv : list string) : Z + diagnostic :=
  if Z.of_nat (List.length argv) =? 3 then
    match stoi (List.nth 2%nat argv EmptyString) with
    | Some title_parsed =>
        if title_parsed <? 0 then inr Title_cannot_be_negative
        else inl (u32 title_parsed)
    | None => inr (Could_not_convert (List.nth 2%nat argv EmptyString))
    end
  else inl 0.

(** With [argc] 0 the usage branch streams [argv[0]], a null pointer, into
    [std::cerr]: C++ does not define that. *)
Definition main (argv : list string) : option run :=
  let argc := Z.of_nat (List.length argv) in
  if negb ((argc =? 2) || (argc =? 3)) then
    match argv with
    | [] => None
    | argv0 :: _ => failed [Usage argv0]
    end
  else
    match parse_title argv with
    | inr d => failed [d]
    | inl title =>
        match dvd_open (List.nth 1%nat argv EmptyString) with
        | inr ex => failed [DVD_read_error ex; Messages_reported_by_libdvdread]
        | inl dvd =>
            match ifo_open dvd_reader_t ifoOpen dvd 0 with
            | inr ex => failed [DVD_read_error ex; Messages_reported_by_libdvdread]
            | inl vmg =>
                if title =? 0 then
                  let writer := writer_ctor seeded [] in
                  leave_scope
                    (titles_loop (Z.to_nat (nr_of_srpts (tt_srpt vmg))) dvd vmg 0 writer)
                else if title >=? nr_of_srpts (tt_srpt vmg) then
                  failed [Title_requested_but_DVD_has title (nr_of_srpts (tt_srpt vmg));
                          Messages_reported_by_libdvdread]
                else
                  let writer := writer_ctor seeded [] in
                  leave_scope
                    (get_chapters_for_title dvd_reader_t ifoOpen dvd vmg
                       (to_int32 title) writer)
            end
        end
    end.

End Random.

Arguments rnd_gen_ {_} _.
Arguments stream_ {_} _.
Arguments chapter_num_ {_} _.
Arguments writer_ctor {_} _ _.
Arguments writer_dtor {_} _.
Arguments leave_scope {_} _.

(** ** Reference readings used to state the properties *)

(** A cell's own duration in frames, as a number (no wrap-around). *)
Definition cell_frames (dt : dvd_time_t) : Z :=
  (from_bcd (hour dt) * 3600 + from_bcd (minute dt) * 60 + from_bcd (second dt))
  * cell_fps dt + frame_field dt.

Definition total_frames (cells : list cell_playback_t) : Z :=
  fold_right (fun c acc => cell_frames (playback_time c) + acc) 0 cells.

(** The rate in force after a run of cells: the last cell's, or the previous
    one when the run is empty. *)
Definition last_fps (cells : list cell_playback_t) (fps : Z) : Z :=
  fold_left (fun _ c => cell_fps (playback_time c)) cells fps.

(** The [n] cells at indices [i], [i + 1], ... of a cell table. *)
Fixpoint cells_from (n : nat) (a : list cell_playback_t) (i : Z)
  : option (list cell_playback_t) :=
  match n with
  | O => Some []
  | S n' =>
      match arr_get a i with
      | None => None
      | Some c => option_map (cons c) (cells_from n' a (i + 1))
      end
  end.

(** The cells at indices [start_cell] to [end_cell], both included. *)
Definition cell_range (cur_pgc : pgc_t) (start_cell end_cell : Z)
  : option (list cell_playback_t) :=
  cells_from (Z.to_nat (end_cell + 1 - start_cell)) (cell_playback cur_pgc) start_cell.

(** The cells read for the chapter between markers [chapter] and
    [chapter + 1]. *)
Definition chapter_cells (vts : ifo_handle_t) (ttn chapter : Z)
  : option (list cell_playback_t) :=
  match marker_at vts ttn chapter, marker_at vts ttn (chapter + 1) with
  | Some m, Some m' =>
      match marker_pgc vts m, marker_pgc vts m' with
      | Some pgc_m, Some pgc_m' =>
          match marker_cell pgc_m m, marker_cell pgc_m' m' with
          | Some c, Some c' => cell_range pgc_m' (c - 1) (c' - 2)
          | _, _ => None
          end
      | _, _ => None
      end
  | _, _ => None
  end.

(** The cells read for [n] chapters from marker [chapter] on, in order. *)
Fixpoint title_cells (n : nat) (vts : ifo_handle_t) (ttn chapter : Z)
  : option (list cell_playback_t) :=
  match n with
  | O => Some []
  | S n' =>
      match chapter_cells vts ttn chapter with
      | None => None
      | Some cs => option_map (app cs) (title_cells n' vts ttn (chapter + 1))
      end
  end.

(** The timestamps the chapter loop hands to the writer, in order. *)
Fixpoint loop_timestamps (n : nat) (vts : ifo_handle_t)
    (ttn chapter overall_frames fps : Z) : option (list Z) :=
  match n with
  | O => Some []
  | S n' =>
      match chapter_body vts ttn chapter overall_frames fps with
      | None => None
      | Some (overall_frames, fps) =>
          option_map (cons (frames_to_timestamp_ms overall_frames fps))
                     (loop_timestamps n' vts ttn (chapter + 1) overall_frames fps)
      end
  end.

(** The calls the walker makes on a title, whatever the writer. *)
Definition title_calls (ts : list Z) : list writer_call :=
  Title_start :: Chapter_start 0 :: map Chapter_start ts ++ [Title_end].

(** Number of [<EditionEntry>] openings on a stream. *)
Fixpoint editions (s : ostream) : nat :=
  match s with
  | [] => O
  | Edition_open _ :: s' => S (editions s')
  | _ :: s' => editions s'
  end.

(** The 256 values of a byte. *)
Definition all_bytes : list Z := map Z.of_nat (seq 0 256).

(** ** Sample navigation data *)

Module Sample.

Definition cell (h m s f : Z) : cell_playback_t :=
  {| playback_time := {| hour := h; minute := m; second := s; frame_u := f |} |}.

Definition one_pgc (map : list Z) (cells : list cell_playback_t) : pgcit_t :=
  {| pgci_srp := [ {| pgc := {| program_map := map; cell_playback := cells |} |} ] |}.

Definition markers (pgns : list Z) : vts_ptt_srpt_t :=
  {| ttu := [ {| ptt := map (fun n => {| pgcn := 1; pgn := n |}) pgns |} ] |}.

Definition no_titles : tt_srpt_t := {| nr_of_srpts := 0; title := [] |}.

Definition vts_of (pgns map : list Z) (cells : list cell_playback_t) : ifo_handle_t :=
  {| tt_srpt := no_titles; vts_ptt_srpt := markers pgns;
     vts_pgcit := one_pgc map cells |}.

(** Three NTSC cells of 100, 200 and 50 frames (3 s + 10, 6 s + 20,
    1 s + 20 frames; rate bits 11), then a fourth cell where the second
    program starts. *)
Definition vts_three_cells : ifo_handle_t :=
  vts_of [1; 2] [1; 4]
    [cell 0 0 3 208; cell 0 0 6 224; cell 0 0 1 224; cell 0 1 0 192].

(** One PAL cell of one second (rate bits 01), then one cell of a single
    frame with rate bits 11. *)
Definition vts_mixed_rate : ifo_handle_t :=
  vts_of [1; 2; 3] [1; 2; 3]
    [cell 0 0 1 64; cell 0 0 0 193; cell 0 0 1 192].

(** NTSC throughout: a cell of 39 hours, then a cell of one hour. *)
Definition vts_long : ifo_handle_t :=
  vts_of [1; 2; 3] [1; 2; 3]
    [cell 57 0 0 192; cell 1 0 0 192; cell 0 0 1 192].

(** PAL throughout: two cells of one minute. *)
Definition vts_pal : ifo_handle_t :=
  vts_of [1; 2; 3] [1; 2; 3]
    [cell 0 1 0 64; cell 0 1 0 64; cell 0 0 1 64].

(** A single chapter marker. *)
Definition vts_single : ifo_handle_t :=
  vts_of [1] [1] [cell 0 1 0 64].

Definition title_info (ptts set : Z) : title_info_t :=
  {| nr_of_ptts := ptts; title_set_nr := set; vts_ttn := 1 |}.

(** A disc with three titles, in the title sets 1, 2 and 3. *)
Definition vmg : ifo_handle_t :=
  {| tt_srpt := {| nr_of_srpts := 3;
                   title := [title_info 1 1; title_info 3 2; title_info 2 3] |};
     vts_ptt_srpt := {| ttu := [] |};
     vts_pgcit := {| pgci_srp := [] |} |}.

(** A disc with one title per sample title set, for the walker alone. *)
Definition vmg_walk : ifo_handle_t :=
  {| tt_srpt := {| nr_of_srpts := 5;
                   title := [title_info 1 1; title_info 3 2; title_info 2 3;
                             title_info 3 4; title_info 3 5] |};
     vts_ptt_srpt := {| ttu := [] |};
     vts_pgcit := {| pgci_srp := [] |} |}.

(** The provider: one disc, under the path [VIDEO_TS]. *)
Definition DVDOpen2 (path : string) : option unit :=
  if String.eqb path "VIDEO_TS" then Some tt else None.

Definition ifoOpen_with (vmg0 : ifo_handle_t) (_ : unit) (n : Z) : option ifo_handle_t :=
  if n =? 0 then Some vmg0
  else if n =? 1 then Some vts_single
  else if n =? 2 then Some vts_pal
  else if n =? 3 then Some vts_three_cells
  else if n =? 4 then Some vts_mixed_rate
  else if n =? 5 then Some vts_long
  else None.

Definition ifoOpen := ifoOpen_with vmg.

(** [std::stoi] on the arguments used below. *)
Definition stoi (s : string) : option Z :=
  if String.eqb s "0" then Some 0
  else if String.eqb s "1" then Some 1
  else if String.eqb s "2" then Some 2
  else if String.eqb s "3" then Some 3
  else if String.eqb s "-1" then Some (-1)
  else None.

(** A stand-in generator: a counter whose draws are its successive values. *)
Definition rnd_draw (g : Z) : Z * Z := (g, g + 1).

Definition run_main (argv : list string) : option run :=
  main Z rnd_draw unit DVDOpen2 ifoOpen stoi 1000 argv.

Definition walk (title_ix : Z) : outcome (list writer_call) :=
  get_chapters_for_title unit (ifoOpen_with vmg_walk) tt vmg_walk title_ix [].

End Sample.

(** ** Readings of the output stream *)

(** The identifiers on a stream, in order. *)
Fixpoint uids (s : ostream) : list Z :=
  match s with
  | [] => []
  | Edition_open u :: s' => u :: uids s'
  | Chapter_atom u _ _ _ _ _ :: s' => u :: uids s'
  | _ :: s' => uids s'
  end.

(** The numbers of the chapter labels on a stream, in order. *)
Fixpoint chapter_nums (s : ostream) : list Z :=
  match s with
  | [] => []
  | Chapter_atom _ _ _ _ _ n :: s' => n :: chapter_nums s'
  | _ :: s' => chapter_nums s'
  end.

(** An item is what a call of the writer leaves on the stream: an edition
    opening for a title start, a chapter atom whose time fields add up to
    the timestamp for a chapter start, an edition closing for a title end. *)
Inductive item_of_call : writer_call -> xml_item -> Prop :=
| item_title_start (u : Z) : item_of_call Title_start (Edition_open u)
| item_chapter_start (t u hr min sec ms n : Z) :
    hr * 3600000 + min * 60000 + sec * 1000 + ms = t ->
    item_of_call (Chapter_start t) (Chapter_atom u hr min sec ms n)
| item_title_end : item_of_call Title_end Edition_close.

(** Editions, each an opening, chapter atoms and a closing, one after the
    other; [inside] tells whether an edition is open. *)
Fixpoint editions_nested (inside : bool) (s : ostream) : bool :=
  match s with
  | [] => negb inside
  | Edition_open _ :: s' => negb inside && editions_nested true s'
  | Chapter_atom _ _ _ _ _ _ :: s' => inside && editions_nested true s'
  | Edition_close :: s' => inside && editions_nested false s'
  | _ :: s' => false
  end.

(** A document: the prolog, complete editions, the closing tag. *)
Definition closed_document (s : ostream) : Prop :=
  exists body,
    s = Xml_prolog :: body ++ [Chapters_close] /\ editions_nested false body = true.

(** The time fields of the chapter atoms of a stream are those of a clock,
    with the hours at most [max_hr]. *)
Fixpoint clock_fields (max_hr : Z) (s : ostream) : Prop :=
  match s with
  | [] => True
  | Chapter_atom _ hr min sec ms _ :: s' =>
      (0 <= hr <= max_hr /\ 0 <= min < 60 /\ 0 <= sec < 60 /\ 0 <= ms < 1000)
      /\ clock_fields max_hr s'
  | _ :: s' => clock_fields max_hr s'
  end.

(** What a writer's stream is while the document is open: the prolog, then
    complete editions whose chapter times are clock times under 48 hours. *)
Definition open_document {mt19937_64 : Type}
    (w : matroska_chapter_xml_writer mt19937_64) : Prop :=
  exists body,
    stream_ w = Xml_prolog :: body
    /\ editions_nested false body = true
    /\ clock_fields 47 body.

(** Calls that draw an identifier. *)
Definition draws_uid (c : writer_call) : bool :=
  match c with
  | Title_end => false
  | _ => true
  end.

Section Draws.

Variable mt19937_64 : Type.
Variable rnd_draw : mt19937_64 -> Z * mt19937_64.

(** The next [n] values of a generator, and the generator after them. *)
Fixpoint draws (n : nat) (g : mt19937_64) : list Z :=
  match n with
  | O => []
  | S n' => fst (rnd_draw g) :: draws n' (snd (rnd_draw g))
  end.

Fixpoint advance (n : nat) (g : mt19937_64) : mt19937_64 :=
  match n with
  | O => g
  | S n' => advance n' (snd (rnd_draw g))
  end.

End Draws.

(** ** The logger handed to libdvdread *)

Module Logger.

(** [dvd_logger_level_t]: the four levels libdvdread names, and any other
    value of the enumeration's underlying type. *)
Inductive dvd_logger_level_t :=
| DVD_LOGGER_LEVEL_INFO
| DVD_LOGGER_LEVEL_ERROR
| DVD_LOGGER_LEVEL_WARN
| DVD_LOGGER_LEVEL_DEBUG
| DVD_LOGGER_LEVEL_other (v : Z).

Record libdvdread_logger := {
  messages_ : list (dvd_logger_level_t * string);
  do_report_messages_ : bool
}.

(** The constructor: no message, reporting on. *)
Definition logger_ctor : libdvdread_logger :=
  {| messages_ := []; do_report_messages_ := true |}.

Definition disable_report (l : libdvdread_logger) : libdvdread_logger :=
  {| messages_ := messages_ l; do_report_messages_ := false |}.

Definition lvl_to_str (lvl : dvd_logger_level_t) : string :=
  match lvl with
  | DVD_LOGGER_LEVEL_INFO => "INFO"
  | DVD_LOGGER_LEVEL_ERROR => "ERROR"
  | DVD_LOGGER_LEVEL_WARN => "WARN"
  | DVD_LOGGER_LEVEL_DEBUG => "DEBUG"
  | DVD_LOGGER_LEVEL_other _ => "unknown"
  end.

Definition real_log (lvl : dvd_logger_level_t) (str : string) (l : libdvdread_logger)
  : libdvdread_logger :=
  {| messages_ := messages_ l ++ [(lvl, str)];
     do_report_messages_ := do_report_messages_ l |}.

(** The first [n] characters of a string: [std::string_view{msg, n}]. *)
Fixpoint first_chars (n : nat) (s : string) : string :=
  match n, s with
  | S n', String c s' => String c (first_chars n' s')
  | _, _ => EmptyString
  end.

(** [sizeof(msg)] *)
Definition msg_size : nat := 16 * 1024.

(** [pf_log_]: [formatted] is the text [vsnprintf] formats, or nothing when
    it returns a negative value.  [vsnprintf] returns the length of the whole
    text and leaves at most [sizeof(msg) - 1] of its characters in [msg]. *)
Definition pf_log_ (lvl : dvd_logger_level_t) (formatted : option string)
    (l : libdvdread_logger) : libdvdread_logger :=
  match formatted with
  | None => l
  | Some text =>
      let num_written := String.length text in
      let sv_length := Nat.min num_written (msg_size - 1) in
      real_log lvl (first_chars sv_length text) l
  end.

Definition newline : string := String (Ascii.ascii_of_nat 10) EmptyString.

(** [std::format("[{}] {}\n", lvl_to_str(msg.first), msg.second)] *)
Definition report_line (msg : dvd_logger_level_t * string) : string :=
  ("[" ++ lvl_to_str (fst msg) ++ "] " ++ snd msg ++ newline)%string.

(** The destructor: what it writes to [std::cerr]. *)
Definition logger_dtor (l : libdvdread_logger) : string :=
  if do_report_messages_ l then
    ("Messages reported by libdvdread :" ++ newline
     ++ fold_right (fun msg rest => report_line msg ++ rest) EmptyString
                   (messages_ l))%string
  else EmptyString.

(** A sequence of [pf_log_] calls, first to last. *)
Definition log_all (calls : list (dvd_logger_level_t * option string))
    (l : libdvdread_logger) : libdvdread_logger :=
  fold_left (fun l c => pf_log_ (fst c) (snd c) l) calls l.

End Logger.

(** ** A sample disc with a title set that does not open *)

Module Broken.

(** Three titles; the second lies in title set 9, which the sample provider
    does not open. *)
Definition vmg : ifo_handle_t :=
  {| tt_srpt := {| nr_of_srpts := 3;
                   title := [Sample.title_info 1 1; Sample.title_info 1 9;
                             Sample.title_info 1 1] |};
     vts_ptt_srpt := {| ttu := [] |};
     vts_pgcit := {| pgci_srp := [] |} |}.

Definition ifoOpen := Sample.ifoOpen_with vmg.

Definition run_main (argv : list string) : option run :=
  main Z Sample.rnd_draw unit Sample.DVDOpen2 ifoOpen Sample.stoi 1000 argv.

End Broken.

(** ** A title whose markers lie in two program chains *)

Module Chains.

(** The first chain: its program 1 starts at cell 2. *)
Definition pgc_a : pgc_t :=
  {| program_map := [2; 3];
     cell_playback := [Sample.cell 0 0 16 64; Sample.cell 0 0 32 64;
                       Sample.cell 0 1 0 64] |}.

(** The second chain: its program 2 starts at cell 4. *)
Definition pgc_b : pgc_t :=
  {| program_map := [1; 4];
     cell_playback := [Sample.cell 0 0 1 64; Sample.cell 0 0 2 64;
                       Sample.cell 0 0 4 64; Sample.cell 0 0 8 64] |}.

(** Two titles in the title set; the second has its first marker in the
    first chain and its second marker in the second chain. *)
Definition vts : ifo_handle_t :=
  {| tt_srpt := Sample.no_titles;
     vts_ptt_srpt :=
       {| ttu := [ {| ptt := [ {| pgcn := 2; pgn := 1 |}; {| pgcn := 2; pgn := 1 |} ] |};
                   {| ptt := [ {| pgcn := 1; pgn := 1 |}; {| pgcn := 2; pgn := 2 |} ] |} ] |};
     vts_pgcit := {| pgci_srp := [ {| pgc := pgc_a |}; {| pgc := pgc_b |} ] |} |}.

(** One title on the disc: two markers, title set 1, title 2 of the set. *)
Definition vmg : ifo_handle_t :=
  {| tt_srpt := {| nr_of_srpts := 1;
                   title := [ {| nr_of_ptts := 2; title_set_nr := 1; vts_ttn := 2 |} ] |};
     vts_ptt_srpt := {| ttu := [] |};
     vts_pgcit := {| pgci_srp := [] |} |}.

Definition ifoOpen (_ : unit) (n : Z) : option ifo_handle_t :=
  if n =? 0 then Some vmg else if n =? 1 then Some vts else None.

End Chains.

(** ** A disc with a single title *)

Module OneTitle.

Definition vmg : ifo_handle_t :=
  {| tt_srpt := {| nr_of_srpts := 1; title := [Sample.title_info 3 2] |};
     vts_ptt_srpt := {| ttu := [] |};
     vts_pgcit := {| pgci_srp := [] |} |}.

Definition ifoOpen := Sample.ifoOpen_with vmg.

Definition run_main (argv : list string) : option run :=
  main Z Sample.rnd_draw unit Sample.DVDOpen2 ifoOpen Sample.stoi 1000 argv.

End OneTitle.

(** * Properties *)

(** ** Bytes and machine integers *)

Lemma all_bytes_In (b : Z) : 0 <= b < 256 -> In b all_bytes.
Proof.
  intros Hb. unfold all_bytes.
  replace b with (Z.of_nat (Z.to_nat b)) by lia.
  apply in_map, in_seq. lia.
Qed.

(** A decidable property checked on the 256 byte values holds of every
    byte. *)
Lemma byte_cases (p : Z -> bool) :
  forallb p all_bytes = true -> forall b, 0 <= b < 256 -> p b = true.
Proof.
  intros Hall b Hb. rewrite forallb_forall in Hall.
  apply Hall, all_bytes_In, Hb.
Qed.

Lemma u32_range (z : Z) : 0 <= u32 z < 2 ^ 32.
Proof. unfold u32. apply Z.mod_pos_bound. lia. Qed.

Lemma u32_small (z : Z) : 0 <= z < 2 ^ 32 -> u32 z = z.
Proof. unfold u32. apply Z.mod_small. Qed.

Lemma u32_add_l (a b : Z) : u32 (u32 a + b) = u32 (a + b).
Proof. unfold u32. apply Zplus_mod_idemp_l. Qed.

Lemma u32_add_r (a b : Z) : u32 (a + u32 b) = u32 (a + b).
Proof. unfold u32. apply Zplus_mod_idemp_r. Qed.

Lemma to_int32_small (z : Z) : 0 <= z < 2 ^ 31 -> to_int32 z = z.
Proof.
  intros Hz. unfold to_int32. rewrite Z.mod_small by lia.
  destruct (Z.ltb_spec z (2 ^ 31)); lia.
Qed.

Lemma to_int32_range (z : Z) : - 2 ^ 31 <= to_int32 z < 2 ^ 31.
Proof.
  unfold to_int32. pose proof (Z.mod_pos_bound z (2 ^ 32) ltac:(lia)).
  destruct (Z.ltb_spec (z mod 2 ^ 32) (2 ^ 31)); lia.
Qed.

Lemma fps_divisor_pos (fps : Z) : 0 <= fps -> 0 < fps_divisor fps.
Proof. unfold fps_divisor. destruct (Z.eqb_spec fps 0); lia. Qed.

(** ** The BCD decoder *)

Lemma from_bcd_byte (b : Z) :
  0 <= b < 256 -> from_bcd b = 10 * (b / 16) + b mod 16.
Proof.
  intros Hb. apply Z.eqb_eq.
  apply (byte_cases (fun b => from_bcd b =? 10 * (b / 16) + b mod 16)); [|exact Hb].
  vm_compute. reflexivity.
Qed.

(** A mask below 256 only reads the low eight bits. *)
Lemma land_low_byte (v m : Z) :
  Z.land 255 m = m -> Z.land v m = Z.land (v mod 256) m.
Proof.
  intros Hm. rewrite <- Hm at 1. rewrite Z.land_assoc.
  change 255 with (Z.ones 8). rewrite Z.land_ones by lia. reflexivity.
Qed.

Lemma from_bcd_low_byte (v : Z) : from_bcd v = from_bcd (v mod 256).
Proof.
  unfold from_bcd.
  rewrite (land_low_byte v 240), (land_low_byte v 15) by reflexivity.
  reflexivity.
Qed.

Lemma from_bcd_range (v : Z) : 0 <= from_bcd v <= 165.
Proof.
  rewrite from_bcd_low_byte.
  assert (Hb : 0 <= v mod 256 < 256) by (apply Z.mod_pos_bound; lia).
  pose proof (byte_cases (fun b => (0 <=? from_bcd b) && (from_bcd b <=? 165))
                eq_refl _ Hb) as H.
  apply andb_prop in H. destruct H as [H1 H2]. cbv beta in *. lia.
Qed.

(** C9 (amended).  For every 8-bit input the BCD decoder returns
    [10 * high_nibble + low_nibble], without any check of the nibbles.  The
    value lies between 0 and 165; it is at most 99 when both nibbles are
    decimal digits, and it exceeds 99 exactly when [10 * high + low] does:
    a nibble above 9 does not by itself push the value out of 0-99. *)
Theorem from_bcd_decodes (b : Z) :
  0 <= b < 256 ->
  from_bcd b = 10 * (b / 16) + b mod 16
  /\ 0 <= from_bcd b <= 165
  /\ (b / 16 <= 9 -> b mod 16 <= 9 -> from_bcd b <= 99)
  /\ (99 < from_bcd b <-> 100 <= 10 * (b / 16) + b mod 16).
Proof.
  intros Hb. pose proof (from_bcd_byte b Hb) as E.
  pose proof (from_bcd_range b) as R.
  repeat split; try lia.
Qed.

(** The decoder on 0x23, 0x00 and 0x99. *)
Lemma from_bcd_decodes_witness :
  from_bcd 35 = 23 /\ from_bcd 0 = 0 /\ from_bcd 153 = 99.
Proof.
  split; [|split].
  - rewrite (proj1 (from_bcd_decodes 35 ltac:(lia))). reflexivity.
  - rewrite (proj1 (from_bcd_decodes 0 ltac:(lia))). reflexivity.
  - rewrite (proj1 (from_bcd_decodes 153 ltac:(lia))). reflexivity.
Defined.

(** The byte 0x0A has a low nibble of 10, and decodes to 10, inside 0-99. *)
Lemma from_bcd_bad_nibble_in_range :
  9 < 10 mod 16 /\ from_bcd 10 = 10 /\ 0 <= from_bcd 10 <= 99.
Proof. vm_compute. repeat split; discriminate. Qed.

(** ** The timestamp converter *)

Lemma frames_to_timestamp_ms_no_wrap (n r : Z) :
  0 <= n -> 2 <= r -> fps_factor r * n < 2 ^ 32 ->
  frames_to_timestamp_ms n r = fps_factor r * n / r.
Proof.
  intros Hn Hr Hlt. unfold frames_to_timestamp_ms.
  assert (Hf : 0 < fps_factor r) by (unfold fps_factor; destruct (r =? 30); lia).
  assert (Hd : fps_divisor r = r) by (unfold fps_divisor; destruct (Z.eqb_spec r 0); lia).
  rewrite Hd, u32_small by nia.
  apply to_int32_small. split.
  - apply Z.div_pos; nia.
  - apply Z.div_lt_upper_bound; lia.
Qed.

(** With a divisor of at least 2 the quotient fits the positive half of
    [int32_t]. *)
Lemma frames_to_timestamp_ms_nonneg (n r : Z) :
  2 <= r -> 0 <= frames_to_timestamp_ms n r < 2 ^ 31.
Proof.
  intros Hr. unfold frames_to_timestamp_ms.
  assert (Hd : fps_divisor r = r) by (unfold fps_divisor; destruct (Z.eqb_spec r 0); lia).
  rewrite Hd. pose proof (u32_range (fps_factor r * n)) as Hu.
  assert (Hq : 0 <= u32 (fps_factor r * n) / r < 2 ^ 31).
  { split; [apply Z.div_pos; lia | apply Z.div_lt_upper_bound; lia]. }
  rewrite to_int32_small; exact Hq.
Qed.

(** C3 (amended).  The converter on the three test inputs: 25 frames at rate
    25 give 1000 ms, 30 frames at rate 30 give 1001 ms, and 2997 frames at
    rate 30 give 99999 ms (2999997 / 30, truncated). *)
Theorem frames_to_timestamp_ms_values :
  frames_to_timestamp_ms 25 25 = 1000
  /\ frames_to_timestamp_ms 30 30 = 1001
  /\ frames_to_timestamp_ms 2997 30 = 99999.
Proof. repeat split. Qed.

(** 2997 frames at rate 30 do not convert to 99900 ms. *)
Lemma frames_to_timestamp_ms_2997 : frames_to_timestamp_ms 2997 30 <> 99900.
Proof. vm_compute. discriminate. Qed.

(** C5 (amended).  For every frame count [n] and admissible rate [r] whose
    product [numerator * n] fits 32 bits, the converter returns the
    truncating quotient [numerator * n / r], the numerator being 1001 at rate
    30 and 1000 at rate 25 (so rate 25 yields [40 * n]); the divisor is never
    zero, being 1 for rate 0, where the result is the wrapped product
    itself. *)
Theorem frames_to_timestamp_ms_exact :
  (forall n r, 0 <= n -> r = 25 \/ r = 30 -> fps_factor r * n < 2 ^ 32 ->
     fps_factor r = (if r =? 30 then 1001 else 1000)
     /\ frames_to_timestamp_ms n r = fps_factor r * n / r
     /\ (r = 25 -> frames_to_timestamp_ms n r = 40 * n))
  /\ (forall r, fps_divisor r <> 0
                /\ (r = 0 -> fps_divisor r = 1)
                /\ (r <> 0 -> fps_divisor r = r))
  /\ (forall n, frames_to_timestamp_ms n 0 = to_int32 (u32 (1000 * n))).
Proof.
  split; [|split].
  - intros n r Hn Hr Hlt. split; [reflexivity|].
    assert (E : frames_to_timestamp_ms n r = fps_factor r * n / r)
      by (apply frames_to_timestamp_ms_no_wrap; lia).
    split; [exact E|].
    intros ->. rewrite E. change (fps_factor 25) with 1000.
    replace (1000 * n) with (40 * n * 25) by lia.
    apply Z.div_mul. lia.
  - intros r. unfold fps_divisor. destruct (Z.eqb_spec r 0); repeat split; lia.
  - intros n. unfold frames_to_timestamp_ms.
    change (fps_factor 0) with 1000. change (fps_divisor 0) with 1.
    rewrite Z.div_1_r. reflexivity.
Qed.

(** Rate 30 below the wrap, rate 25 at 40 ms a frame, and rate 0. *)
Lemma frames_to_timestamp_ms_exact_witness :
  frames_to_timestamp_ms 2997 30 = 1001 * 2997 / 30
  /\ frames_to_timestamp_ms 90000 25 = 40 * 90000
  /\ fps_divisor 0 = 1.
Proof.
  pose proof frames_to_timestamp_ms_exact as [H [D _]].
  split; [|split].
  - apply (H 2997 30); [lia | right; reflexivity | vm_compute; reflexivity].
  - apply (H 90000 25); [lia | left; reflexivity | vm_compute; reflexivity | reflexivity].
  - apply (D 0). reflexivity.
Defined.

(** At rate 25, 4294968 frames convert to 28 ms, not to 40 ms a frame. *)
Lemma frames_to_timestamp_ms_wrapped_25 :
  frames_to_timestamp_ms 4294968 25 = 28
  /\ frames_to_timestamp_ms 4294968 25 <> 1000 * 4294968 / 25.
Proof. vm_compute. split; [reflexivity | discriminate]. Qed.

(** C10 (amended).  The product [factor * num_frames] is formed modulo 2^32:
    the result is [((factor * n) mod 2^32) / r'] read as a signed 32-bit
    integer, [r'] being [r], or 1 when [r] is 0.  For every [n] above
    [(2^32 - 1) / 1001] the timestamp at rate 30 is the quotient of the
    wrapped product and differs from [1001 * n / 30]; it is not negative, at
    rate 30 or at any rate of 2 or more.  A negative result needs the
    divisor 1, as for 2147484 frames at rate 0. *)
Theorem frames_to_timestamp_ms_wraps :
  (forall n r, frames_to_timestamp_ms n r
               = to_int32 (((fps_factor r * n) mod 2 ^ 32) / fps_divisor r))
  /\ (forall n, (2 ^ 32 - 1) / 1001 < n ->
        frames_to_timestamp_ms n 30 = ((1001 * n) mod 2 ^ 32) / 30
        /\ frames_to_timestamp_ms n 30 <> 1001 * n / 30)
  /\ (forall n r, 2 <= r -> 0 <= frames_to_timestamp_ms n r)
  /\ frames_to_timestamp_ms 2147484 0 < 0.
Proof.
  split; [reflexivity|]. split; [|split].
  - intros n Hn. change ((2 ^ 32 - 1) / 1001) with 4290676 in Hn.
    pose proof (frames_to_timestamp_ms_nonneg n 30 ltac:(lia)) as R.
    assert (E : frames_to_timestamp_ms n 30 = ((1001 * n) mod 2 ^ 32) / 30).
    { unfold frames_to_timestamp_ms in *. change (fps_factor 30) with 1001 in *.
      change (fps_divisor 30) with 30 in *. unfold u32 in *.
      pose proof (Z.mod_pos_bound (1001 * n) (2 ^ 32) ltac:(lia)) as B.
      apply to_int32_small. split.
      - apply Z.div_pos; lia.
      - apply Z.div_lt_upper_bound; lia. }
    split; [exact E|]. rewrite E.
    pose proof (Z.mod_pos_bound (1001 * n) (2 ^ 32) ltac:(lia)) as B.
    assert (((1001 * n) mod 2 ^ 32) / 30 <= 143165576).
    { apply Z.lt_succ_r. apply Z.div_lt_upper_bound; lia. }
    assert (143165589 <= 1001 * n / 30).
    { apply Z.div_le_lower_bound; lia. }
    lia.
  - intros n r Hr. apply frames_to_timestamp_ms_nonneg, Hr.
  - vm_compute. reflexivity.
Qed.

(** The first frame count whose product with 1001 wraps. *)
Lemma frames_to_timestamp_ms_wraps_witness :
  frames_to_timestamp_ms 4290677 30 = 12
  /\ frames_to_timestamp_ms 4290677 30 <> 1001 * 4290677 / 30.
Proof.
  pose proof frames_to_timestamp_ms_wraps as [_ [H _]].
  destruct (H 4290677 ltac:(vm_compute; reflexivity)) as [E N].
  split; [rewrite E; reflexivity | exact N].
Defined.

(** At rate 30 no frame count yields a negative timestamp. *)
Lemma frames_to_timestamp_ms_30_never_negative :
  ~ (exists n, (2 ^ 32 - 1) / 1001 < n /\ frames_to_timestamp_ms n 30 < 0).
Proof.
  intros [n [_ H]].
  pose proof (frames_to_timestamp_ms_nonneg n 30 ltac:(lia)). lia.
Qed.

(** ** The cell loop *)

Lemma cell_fps_admissible (dt : dvd_time_t) : cell_fps dt = 25 \/ cell_fps dt = 30.
Proof. unfold cell_fps. destruct (_ =? 1); auto. Qed.

Lemma frame_field_nonneg (dt : dvd_time_t) : 0 <= frame_field dt.
Proof.
  unfold frame_field.
  assert (0 <= Z.land (frame_u dt) 48) by (apply Z.land_nonneg; lia).
  assert (0 <= Z.land (frame_u dt) 15) by (apply Z.land_nonneg; lia).
  assert (0 <= Z.shiftr (Z.land (frame_u dt) 48) 4) by (apply Z.shiftr_nonneg; lia).
  lia.
Qed.

Lemma cell_frames_nonneg (dt : dvd_time_t) : 0 <= cell_frames dt.
Proof.
  unfold cell_frames.
  pose proof (from_bcd_range (hour dt)). pose proof (from_bcd_range (minute dt)).
  pose proof (from_bcd_range (second dt)). pose proof (frame_field_nonneg dt).
  destruct (cell_fps_admissible dt) as [-> | ->]; lia.
Qed.

Lemma total_frames_nonneg (cells : list cell_playback_t) : 0 <= total_frames cells.
Proof.
  induction cells as [|c cells IH]; simpl; [lia|].
  pose proof (cell_frames_nonneg (playback_time c)). lia.
Qed.

Lemma total_frames_app (xs ys : list cell_playback_t) :
  total_frames (xs ++ ys) = total_frames xs + total_frames ys.
Proof. induction xs as [|x xs IH]; simpl; lia. Qed.

Lemma last_fps_app (xs ys : list cell_playback_t) (fps : Z) :
  last_fps (xs ++ ys) fps = last_fps ys (last_fps xs fps).
Proof. unfold last_fps. apply fold_left_app. Qed.

(** One pass adds the cell's own duration, modulo 2^32, and captures the
    cell's rate. *)
Lemma cell_body_spec (dt : dvd_time_t) (cur_frames : Z) :
  cell_body dt cur_frames = (u32 (cur_frames + cell_frames dt), cell_fps dt).
Proof.
  unfold cell_body, cell_frames. cbv zeta.
  rewrite u32_add_l.
  match goal with
  | |- (u32 (cur_frames + u32 ?a + ?f), _) = _ =>
      replace (cur_frames + u32 a + f) with (cur_frames + f + u32 a) by lia
  end.
  rewrite u32_add_r. do 2 f_equal. lia.
Qed.

(** The loop adds up the cells it passes and keeps the last cell's rate. *)
Lemma cell_loop_spec (n : nat) (cur_pgc : pgc_t) :
  forall cur_cell cur_frames fps,
    0 <= cur_frames < 2 ^ 32 ->
    cell_loop n cur_pgc cur_cell cur_frames fps
    = match cells_from n (cell_playback cur_pgc) cur_cell with
      | None => None
      | Some cells => Some (u32 (cur_frames + total_frames cells), last_fps cells fps)
      end.
Proof.
  induction n as [|n IH]; intros cur_cell cur_frames fps Hcur;
    cbn [cell_loop cells_from].
  - cbn [total_frames fold_right last_fps fold_left].
    rewrite Z.add_0_r, u32_small by exact Hcur. reflexivity.
  - destruct (arr_get (cell_playback cur_pgc) cur_cell) as [cell|]; [|reflexivity].
    rewrite cell_body_spec, IH by apply u32_range.
    destruct (cells_from n (cell_playback cur_pgc) (cur_cell + 1)) as [cells|];
      cbn [option_map]; [|reflexivity].
    rewrite u32_add_l.
    change (total_frames (cell :: cells))
      with (cell_frames (playback_time cell) + total_frames cells).
    change (last_fps (cell :: cells) fps)
      with (last_fps cells (cell_fps (playback_time cell))).
    rewrite Z.add_assoc. reflexivity.
Qed.

Lemma cells_from_length (n : nat) (a : list cell_playback_t) :
  forall i cells, cells_from n a i = Some cells -> List.length cells = n.
Proof.
  induction n as [|n IH]; intros i cells; simpl.
  - intros [= <-]. reflexivity.
  - destruct (arr_get a i); [|discriminate].
    destruct (cells_from n a (i + 1)) as [cs|] eqn:E; simpl; [|discriminate].
    intros [= <-]. simpl. f_equal. eapply IH, E.
Qed.


(** The chapter body in terms of the cells it reads. *)
Lemma chapter_body_spec (vts : ifo_handle_t) (ttn chapter overall_frames fps : Z) :
  chapter_body vts ttn chapter overall_frames fps
  = match chapter_cells vts ttn chapter with
    | None => None
    | Some cells =>
        Some (u32 (overall_frames + u32 (total_frames cells)), last_fps cells fps)
    end.
Proof.
  unfold chapter_body, chapter_cells, cell_range.
  destruct (marker_at vts ttn chapter) as [m|]; [|reflexivity].
  destruct (marker_at vts ttn (chapter + 1)) as [m'|];
    [|destruct (marker_pgc vts m) as [p|]; [destruct (marker_cell p m)|]; reflexivity].
  destruct (marker_pgc vts m) as [p|]; [|reflexivity].
  destruct (marker_pgc vts m') as [p'|]; [|destruct (marker_cell p m); reflexivity].
  destruct (marker_cell p m) as [c|]; [|reflexivity].
  destruct (marker_cell p' m') as [c'|]; [|reflexivity].
  cbv zeta. rewrite cell_loop_spec by lia.
  destruct (cells_from _ _ _) as [cells|]; [|reflexivity].
  rewrite Z.add_0_l. reflexivity.
Qed.

Lemma cell_fps_bits (u : Z) :
  (if Z.shiftr (Z.land u 192) 6 =? 1 then 25 else 30)
  = (if Z.testbit u 6 && negb (Z.testbit u 7) then 25 else 30).
Proof.
  rewrite (land_low_byte u 192) by reflexivity.
  rewrite <- (Z.mod_pow2_bits_low u 8 6), <- (Z.mod_pow2_bits_low u 8 7) by lia.
  change (2 ^ 8) with 256.
  assert (Hb : 0 <= u mod 256 < 256) by (apply Z.mod_pos_bound; lia).
  apply Z.eqb_eq.
  exact (byte_cases
           (fun b => (if Z.shiftr (Z.land b 192) 6 =? 1 then 25 else 30)
                     =? (if Z.testbit b 6 && negb (Z.testbit b 7) then 25 else 30))
           eq_refl _ Hb).
Qed.

(** C2 (amended).  The rate a cell yields is decided by the two high bits of
    its combined frame/rate byte: 25 fps when bit 6 is set and bit 7 is clear
    (the field reads 01), 30 fps for every other byte value, bit 6 set with
    bit 7 set included.  Every pass of the cell loop captures the rate of its
    cell, so after the loop the rate is the one of the last cell read, and
    the chapter body hands on the rate of the last cell of its range. *)
Theorem cell_fps_capture :
  (forall dt, cell_fps dt
              = if Z.testbit (frame_u dt) 6 && negb (Z.testbit (frame_u dt) 7)
                then 25 else 30)
  /\ (forall dt cur_frames, snd (cell_body dt cur_frames) = cell_fps dt)
  /\ (forall n cur_pgc start_cell cur_frames fps cur_frames' fps',
        cell_loop (S n) cur_pgc start_cell cur_frames fps = Some (cur_frames', fps') ->
        exists cell,
          arr_get (cell_playback cur_pgc) (start_cell + Z.of_nat n) = Some cell
          /\ fps' = cell_fps (playback_time cell))
  /\ (forall vts ttn chapter overall_frames fps overall_frames' fps',
        chapter_body vts ttn chapter overall_frames fps = Some (overall_frames', fps') ->
        exists cells,
          chapter_cells vts ttn chapter = Some cells
          /\ fps' = last_fps cells fps
          /\ (forall cells' cell, cells = cells' ++ [cell] ->
                fps' = cell_fps (playback_time cell))).
Proof.
  split; [|split; [|split]].
  - intros dt. unfold cell_fps. apply cell_fps_bits.
  - intros dt cur_frames. rewrite cell_body_spec. reflexivity.
  - induction n as [|n IH]; intros cur_pgc start_cell cur_frames fps cur_frames' fps'.
    + cbn [cell_loop].
      destruct (arr_get (cell_playback cur_pgc) start_cell) as [cell|] eqn:E;
        [|discriminate].
      rewrite cell_body_spec. intros [= _ <-].
      exists cell. rewrite Z.add_0_r. split; [exact E | reflexivity].
    + change (cell_loop (S (S n)) cur_pgc start_cell cur_frames fps)
        with (match arr_get (cell_playback cur_pgc) start_cell with
              | None => None
              | Some cell =>
                  let '(cur_frames, fps) := cell_body (playback_time cell) cur_frames in
                  cell_loop (S n) cur_pgc (start_cell + 1) cur_frames fps
              end).
      destruct (arr_get (cell_playback cur_pgc) start_cell) as [cell|]; [|discriminate].
      rewrite cell_body_spec. intros H. apply IH in H.
      destruct H as [cell' [E F]]. exists cell'. split; [|exact F].
      rewrite <- E. f_equal. lia.
  - intros vts ttn chapter overall_frames fps overall_frames' fps'.
    rewrite chapter_body_spec.
    destruct (chapter_cells vts ttn chapter) as [cells|]; [|discriminate].
    intros [= _ <-]. exists cells. split; [reflexivity|]. split; [reflexivity|].
    intros cells' cell ->. rewrite last_fps_app. reflexivity.
Qed.

(** Bit 6 set, and 30 fps. *)
Lemma cell_fps_bit6_set_30 :
  Z.testbit 192 6 = true
  /\ cell_fps {| hour := 0; minute := 0; second := 0; frame_u := 192 |} = 30.
Proof. split; reflexivity. Qed.

(** The sample cells: a PAL byte, a byte with both rate bits set, and the
    rate handed on by the three-cell chapter. *)
Lemma cell_fps_capture_witness :
  cell_fps (playback_time (Sample.cell 0 0 1 64)) = 25
  /\ cell_fps (playback_time (Sample.cell 0 0 3 208)) = 30
  /\ exists cells,
       chapter_cells Sample.vts_three_cells 1 0 = Some cells
       /\ 30 = last_fps cells 0.
Proof.
  pose proof cell_fps_capture as [Hbits [_ [_ Hchapter]]].
  split; [|split].
  - rewrite Hbits. reflexivity.
  - rewrite Hbits. reflexivity.
  - destruct (Hchapter Sample.vts_three_cells 1 0 0 0 350 30 eq_refl)
      as [cells [E [F _]]].
    exists cells. split; [exact E | exact F].
Defined.

(** ** The chapter body *)



(** C4 (amended).  A chapter whose cell range consists of 3 cells of 100, 200
    and 50 frames at rate 30 accumulates a subtotal of exactly 350 frames;
    converted at rate 30 the subtotal is 350 * 1001 / 30 = 11678 ms, the
    timestamp of the chapter-start event when the counter was 0 before.  From
    any other counter value at rate 30, without wrap-around, the cumulative
    timestamp advances by 11678 or by 11679 ms, the timestamp being the
    conversion of the whole counter. *)
Theorem three_cell_chapter :
  forall vts ttn chapter fps c1 c2 c3,
    chapter_cells vts ttn chapter = Some [c1; c2; c3] ->
    cell_fps (playback_time c1) = 30 ->
    cell_fps (playback_time c2) = 30 ->
    cell_fps (playback_time c3) = 30 ->
    cell_frames (playback_time c1) = 100 ->
    cell_frames (playback_time c2) = 200 ->
    cell_frames (playback_time c3) = 50 ->
    total_frames [c1; c2; c3] = 350
    /\ (forall overall_frames,
          chapter_body vts ttn chapter overall_frames fps
          = Some (u32 (overall_frames + 350), 30))
    /\ frames_to_timestamp_ms 350 30 = 11678
    /\ 350 * 1001 / 30 = 11678
    /\ chapter_loop 1 vts ttn chapter 0 fps ([] : list writer_call)
       = Some [Chapter_start 11678]
    /\ (forall overall_frames,
          0 <= overall_frames -> 1001 * (overall_frames + 350) < 2 ^ 32 ->
          exists t,
            chapter_loop 1 vts ttn chapter overall_frames fps ([] : list writer_call)
            = Some [Chapter_start t]
            /\ t = 1001 * (overall_frames + 350) / 30
            /\ (t - frames_to_timestamp_ms overall_frames 30 = 11678
                \/ t - frames_to_timestamp_ms overall_frames 30 = 11679)).
Proof.
  intros vts ttn chapter fps c1 c2 c3 Hcells R1 R2 R3 F1 F2 F3.
  assert (T : total_frames [c1; c2; c3] = 350).
  { unfold total_frames. cbn [fold_right]. rewrite F1, F2, F3. reflexivity. }
  assert (B : forall overall_frames,
             chapter_body vts ttn chapter overall_frames fps
             = Some (u32 (overall_frames + 350), 30)).
  { intros overall_frames. rewrite chapter_body_spec, Hcells, T.
    unfold last_fps. cbn [fold_left]. rewrite R3. reflexivity. }
  split; [exact T|]. split; [exact B|]. split; [reflexivity|].
  split; [reflexivity|].
  split; [cbn [chapter_loop]; rewrite B; reflexivity|].
  intros o Ho Hlt. eexists. split; [cbn [chapter_loop]; rewrite B; reflexivity|].
  rewrite u32_small by lia.
  rewrite (frames_to_timestamp_ms_no_wrap (o + 350) 30),
          (frames_to_timestamp_ms_no_wrap o 30)
    by (try change (fps_factor 30) with 1001; lia).
  change (fps_factor 30) with 1001. split; [reflexivity|].
  pose proof (Z.div_mod (1001 * o) 30 ltac:(lia)).
  pose proof (Z.mod_pos_bound (1001 * o) 30 ltac:(lia)).
  pose proof (Z.div_mod (1001 * (o + 350)) 30 ltac:(lia)).
  pose proof (Z.mod_pos_bound (1001 * (o + 350)) 30 ltac:(lia)).
  lia.
Qed.

Lemma three_cell_chapter_witness :
  chapter_loop 1 Sample.vts_three_cells 1 0 0 0 ([] : list writer_call)
  = Some [Chapter_start 11678].
Proof.
  apply (three_cell_chapter Sample.vts_three_cells 1 0 0
           (Sample.cell 0 0 3 208) (Sample.cell 0 0 6 224) (Sample.cell 0 0 1 224));
    reflexivity.
Defined.

(** The walker on the three-cell sample title emits 11678, and neither the
    converter nor the quotient gives 11677.  With 2 frames counted before,
    the same chapter moves the timestamp from 66 to 11745 ms, by 11679. *)
Lemma three_cell_chapter_not_11677 :
  Sample.walk 2 = Done [Title_start; Chapter_start 0; Chapter_start 11678; Title_end]
  /\ frames_to_timestamp_ms 350 30 <> 11677
  /\ 350 * 1001 / 30 <> 11677
  /\ frames_to_timestamp_ms 2 30 = 66
  /\ chapter_loop 1 Sample.vts_three_cells 1 0 2 30 ([] : list writer_call)
     = Some [Chapter_start 11745]
  /\ 11745 - 66 <> 11678.
Proof.
  split; [reflexivity|]. split; [vm_compute; discriminate|].
  split; [vm_compute; discriminate|]. split; [reflexivity|].
  split; [reflexivity|]. discriminate.
Qed.

(** ** The walker and its writer *)

Lemma replay_app {W} `{Writer W} (xs ys : list writer_call) (w : W) :
  replay (xs ++ ys) w = replay ys (replay xs w).
Proof. unfold replay. apply fold_left_app. Qed.

(** On the recording writer, replaying calls appends them. *)
Lemma replay_log (cs l : list writer_call) : replay cs l = l ++ cs.
Proof.
  revert l. induction cs as [|c cs IH]; intros l.
  - rewrite app_nil_r. reflexivity.
  - change (replay (c :: cs) l) with (replay cs (replay_call c l)).
    rewrite IH. destruct c; cbn [replay_call on_title_start on_chapter_start
                                 on_title_end call_log_writer];
      rewrite <- app_assoc; reflexivity.
Qed.

Lemma chapter_timestamps_app (xs ys : list writer_call) :
  chapter_timestamps (xs ++ ys) = chapter_timestamps xs ++ chapter_timestamps ys.
Proof.
  induction xs as [|[| t |] xs IH]; cbn [app chapter_timestamps]; rewrite ?IH; reflexivity.
Qed.

Lemma chapter_timestamps_map (ts : list Z) :
  chapter_timestamps (map Chapter_start ts) = ts.
Proof. induction ts as [|t ts IH]; cbn [map chapter_timestamps]; rewrite ?IH; reflexivity. Qed.

(** Whatever the writer, the chapter loop calls [on_chapter_start] once per
    pass, with the timestamps of [loop_timestamps]. *)
Lemma chapter_loop_calls {W} `{Writer W} (n : nat) (vts : ifo_handle_t) (ttn : Z) :
  forall chapter overall_frames fps (writer : W),
    chapter_loop n vts ttn chapter overall_frames fps writer
    = option_map (fun ts => replay (map Chapter_start ts) writer)
                 (loop_timestamps n vts ttn chapter overall_frames fps).
Proof.
  induction n as [|n IH]; intros chapter overall_frames fps writer;
    cbn [chapter_loop loop_timestamps].
  - reflexivity.
  - destruct (chapter_body vts ttn chapter overall_frames fps) as [[o f]|];
      [|reflexivity].
    rewrite IH. destruct (loop_timestamps n vts ttn (chapter + 1) o f) as [ts|];
      reflexivity.
Qed.

Lemma get_chapters_for_title_calls {W} `{Writer W} (dvd_reader_t : Type)
    (ifoOpen : dvd_reader_t -> Z -> option ifo_handle_t)
    (dvd : dvd_reader_t) (vmg : ifo_handle_t) (title_ix : Z) (writer : W) :
  get_chapters_for_title dvd_reader_t ifoOpen dvd vmg title_ix writer
  = match arr_get (title (tt_srpt vmg)) title_ix with
    | None => Undefined
    | Some ti =>
        match ifoOpen dvd (title_set_nr ti) with
        | None => Thrown (Failed_to_open_IFO (title_set_nr ti)) writer
        | Some vts =>
            match loop_timestamps (Z.to_nat (nr_of_ptts ti - 1)) vts (vts_ttn ti) 0 0 0 with
            | None => Undefined
            | Some ts => Done (replay (title_calls ts) writer)
            end
        end
    end.
Proof.
  unfold get_chapters_for_title, ifo_open.
  destruct (arr_get (title (tt_srpt vmg)) title_ix) as [ti|]; [|reflexivity].
  destruct (ifoOpen dvd (title_set_nr ti)) as [vts|]; [|reflexivity].
  cbv zeta. rewrite chapter_loop_calls.
  destruct (loop_timestamps _ vts (vts_ttn ti) 0 0 0) as [ts|]; [|reflexivity].
  cbn [option_map]. unfold title_calls.
  change (Title_start :: Chapter_start 0 :: map Chapter_start ts ++ [Title_end])
    with ([Title_start; Chapter_start 0] ++ map Chapter_start ts ++ [Title_end]).
  rewrite !replay_app. reflexivity.
Qed.

(** C8.  For every title whose marker count is exactly 1 the pairwise loop
    makes no pass: the walker, on any writer, calls [on_title_start], then
    [on_chapter_start] once, with timestamp 0, then [on_title_end], and
    nothing else. *)
Theorem single_marker_title :
  forall (W : Type) (HW : Writer W) (dvd_reader_t : Type)
         (ifoOpen : dvd_reader_t -> Z -> option ifo_handle_t)
         dvd vmg title_ix ti vts (writer : W),
    arr_get (title (tt_srpt vmg)) title_ix = Some ti ->
    nr_of_ptts ti = 1 ->
    ifoOpen dvd (title_set_nr ti) = Some vts ->
    Z.to_nat (nr_of_ptts ti - 1) = O
    /\ get_chapters_for_title dvd_reader_t ifoOpen dvd vmg title_ix writer
       = Done (on_title_end (on_chapter_start 0 (on_title_start writer)))
    /\ get_chapters_for_title dvd_reader_t ifoOpen dvd vmg title_ix
         ([] : list writer_call)
       = Done [Title_start; Chapter_start 0; Title_end].
Proof.
  intros W HW dvd_reader_t ifoOpen dvd vmg title_ix ti vts writer Hti Hn Hvts.
  split; [rewrite Hn; reflexivity|].
  unfold get_chapters_for_title, ifo_open. rewrite Hti, Hvts, Hn.
  split; reflexivity.
Qed.

Lemma single_marker_title_witness :
  Sample.walk 0 = Done [Title_start; Chapter_start 0; Title_end].
Proof.
  apply (single_marker_title (list writer_call) _ unit
           (Sample.ifoOpen_with Sample.vmg_walk) tt Sample.vmg_walk 0
           (Sample.title_info 1 1) Sample.vts_single []);
    reflexivity.
Defined.

(** ** Order of the timestamps of a title *)

Lemma frames_to_timestamp_ms_0 (fps : Z) : frames_to_timestamp_ms 0 fps = 0.
Proof.
  unfold frames_to_timestamp_ms. rewrite Z.mul_0_r.
  change (u32 0) with 0. rewrite Zdiv_0_l. reflexivity.
Qed.

Lemma last_fps_same (cells : list cell_playback_t) (r : Z) :
  Forall (fun c => cell_fps (playback_time c) = r) cells ->
  forall fps, cells = [] \/ last_fps cells fps = r.
Proof.
  induction 1 as [|c cells Hc _ IH]; intros fps; [left; reflexivity|].
  right. change (last_fps (c :: cells) fps)
    with (last_fps cells (cell_fps (playback_time c))).
  destruct (IH (cell_fps (playback_time c))) as [-> | E]; [exact Hc | exact E].
Qed.

(** Where the walk is defined, so are the cells it read. *)
Lemma title_cells_defined (n : nat) (vts : ifo_handle_t) (ttn : Z) :
  forall chapter overall_frames fps ts,
    loop_timestamps n vts ttn chapter overall_frames fps = Some ts ->
    exists cells, title_cells n vts ttn chapter = Some cells.
Proof.
  induction n as [|n IH]; intros chapter overall_frames fps ts;
    cbn [loop_timestamps title_cells].
  - intros _. exists []. reflexivity.
  - rewrite chapter_body_spec.
    destruct (chapter_cells vts ttn chapter) as [cs|]; [|discriminate].
    destruct (loop_timestamps n vts ttn (chapter + 1) _ _) as [ts'|] eqn:E;
      [|discriminate].
    intros _. destruct (IH _ _ _ _ E) as [rest ->].
    exists (cs ++ rest). reflexivity.
Qed.

(** With one rate throughout and no wrap-around, each timestamp is the exact
    conversion of the frames counted so far, so the timestamps ascend. *)
Lemma loop_timestamps_sorted (n : nat) (vts : ifo_handle_t) (ttn r : Z) :
  r = 25 \/ r = 30 ->
  forall chapter overall_frames fps cells ts,
    loop_timestamps n vts ttn chapter overall_frames fps = Some ts ->
    title_cells n vts ttn chapter = Some cells ->
    Forall (fun c => cell_fps (playback_time c) = r) cells ->
    0 <= overall_frames ->
    fps_factor r * (overall_frames + total_frames cells) < 2 ^ 32 ->
    overall_frames = 0 \/ fps = r ->
    Sorted Z.le ts
    /\ Forall (fun t => fps_factor r * overall_frames / r <= t) ts.
Proof.
  intros Hr.
  assert (HF : 1000 <= fps_factor r) by (unfold fps_factor; destruct (r =? 30); lia).
  induction n as [|n IH]; intros chapter o fps cells ts;
    cbn [loop_timestamps title_cells].
  - intros [= <-] _ _ _ _ _. split; constructor.
  - rewrite chapter_body_spec.
    destruct (chapter_cells vts ttn chapter) as [cs|]; [|discriminate].
    destruct (loop_timestamps n vts ttn (chapter + 1) _ _) as [ts'|] eqn:Ets;
      [|discriminate].
    destruct (title_cells n vts ttn (chapter + 1)) as [rest|] eqn:Erest;
      [|discriminate].
    cbn [option_map]. intros [= <-] [= <-] Hall Ho Hlt Hinv.
    apply Forall_app in Hall. destruct Hall as [Hcs Hrest].
    rewrite total_frames_app in Hlt.
    pose proof (total_frames_nonneg cs) as Pcs.
    pose proof (total_frames_nonneg rest) as Prest.
    assert (Eo : u32 (o + u32 (total_frames cs)) = o + total_frames cs).
    { rewrite u32_add_r. apply u32_small. nia. }
    rewrite Eo in *.
    set (o' := o + total_frames cs) in *.
    set (f' := last_fps cs fps) in *.
    assert (Hinv' : o' = 0 \/ f' = r).
    { destruct (last_fps_same cs r Hcs fps) as [-> | E]; [|right; exact E].
      subst o' f'. cbn. destruct Hinv as [-> | ->]; [left | right]; reflexivity. }
    assert (Et : frames_to_timestamp_ms o' f' = fps_factor r * o' / r).
    { destruct Hinv' as [-> | ->].
      - rewrite frames_to_timestamp_ms_0, Z.mul_0_r, Zdiv_0_l. reflexivity.
      - apply frames_to_timestamp_ms_no_wrap; subst o'; nia. }
    destruct (IH _ _ _ _ _ Ets Erest Hrest ltac:(subst o'; lia)
                ltac:(subst o'; nia) Hinv') as [Hs Hb].
    rewrite Et. split.
    + constructor; [exact Hs|].
      destruct Hb as [|t ts' Ht _]; constructor. exact Ht.
    + assert (Hmono : fps_factor r * o / r <= fps_factor r * o' / r).
      { apply Z.div_le_mono; subst o'; nia. }
      constructor; [exact Hmono|].
      eapply Forall_impl; [|exact Hb]. cbv beta. intros t Ht. lia.
Qed.

(** C7 (amended).  For every title the walker completes, the first
    chapter-start timestamp is 0; the sequence of chapter-start timestamps
    is non-decreasing when every cell read for the title carries the same
    frame rate and the frame total of those cells, multiplied by the rate's
    factor (1001 or 1000), stays below 2^32. *)
Theorem chapter_timestamps_monotone :
  forall (dvd_reader_t : Type) (ifoOpen : dvd_reader_t -> Z -> option ifo_handle_t)
         dvd vmg title_ix log,
    get_chapters_for_title dvd_reader_t ifoOpen dvd vmg title_ix
      ([] : list writer_call) = Done log ->
    (exists rest, chapter_timestamps log = 0 :: rest)
    /\ exists ti vts cells,
         arr_get (title (tt_srpt vmg)) title_ix = Some ti
         /\ ifoOpen dvd (title_set_nr ti) = Some vts
         /\ title_cells (Z.to_nat (nr_of_ptts ti - 1)) vts (vts_ttn ti) 0 = Some cells
         /\ forall r,
              Forall (fun c => cell_fps (playback_time c) = r) cells ->
              fps_factor r * total_frames cells < 2 ^ 32 ->
              Sorted Z.le (chapter_timestamps log).
Proof.
  intros dvd_reader_t ifoOpen dvd vmg title_ix log.
  rewrite get_chapters_for_title_calls.
  destruct (arr_get (title (tt_srpt vmg)) title_ix) as [ti|] eqn:Eti; [|discriminate].
  destruct (ifoOpen dvd (title_set_nr ti)) as [vts|] eqn:Evts; [|discriminate].
  destruct (loop_timestamps _ vts (vts_ttn ti) 0 0 0) as [ts|] eqn:Ets; [|discriminate].
  intros [= <-]. rewrite replay_log. unfold title_calls.
  cbn [app chapter_timestamps].
  rewrite chapter_timestamps_app, chapter_timestamps_map.
  cbn [chapter_timestamps]. rewrite app_nil_r.
  split; [exists ts; reflexivity|].
  destruct (title_cells_defined _ _ _ _ _ _ _ Ets) as [cells Hcells].
  exists ti, vts, cells.
  split; [reflexivity|]. split; [exact Evts|]. split; [exact Hcells|].
  intros r Hall Hlt.
  assert (Hsorted : exists r', Sorted Z.le ts
                               /\ Forall (fun t => fps_factor r' * 0 / r' <= t) ts).
  { destruct cells as [|c cells'].
    - exists 25.
      apply (loop_timestamps_sorted _ vts (vts_ttn ti) 25 (or_introl eq_refl)
               0 0 0 [] ts Ets Hcells); [constructor | lia | reflexivity | left; reflexivity].
    - exists r.
      assert (Hr : r = 25 \/ r = 30).
      { inversion Hall as [|? ? Hc _]; subst. apply cell_fps_admissible. }
      apply (loop_timestamps_sorted _ vts (vts_ttn ti) r Hr
               0 0 0 _ ts Ets Hcells Hall); [lia | exact Hlt | left; reflexivity]. }
  destruct Hsorted as [r' [Hs Hb]].
  constructor; [exact Hs|].
  destruct Hb as [|t ts' Ht _]; constructor.
  rewrite Z.mul_0_r, Zdiv_0_l in Ht. exact Ht.
Qed.

(** The PAL sample title: one rate, no wrap, ascending timestamps. *)
Lemma chapter_timestamps_monotone_witness :
  Sorted Z.le
    (chapter_timestamps
       [Title_start; Chapter_start 0; Chapter_start 60000; Chapter_start 120000;
        Title_end]).
Proof.
  destruct (chapter_timestamps_monotone unit (Sample.ifoOpen_with Sample.vmg_walk)
              tt Sample.vmg_walk 1 _ eq_refl)
    as [_ [ti [vts [cells [Hti [Hvts [Hcells Hsorted]]]]]]].
  injection Hti as <-. injection Hvts as <-. injection Hcells as <-.
  apply (Hsorted 25).
  - repeat constructor.
  - vm_compute. reflexivity.
Defined.

(** Two sample titles whose timestamps descend: one mixes the two rates, the
    other is NTSC throughout and 40 hours long, so that the product with 1001
    wraps. *)
Lemma chapter_timestamps_can_descend :
  Sample.walk 3
  = Done [Title_start; Chapter_start 0; Chapter_start 1000; Chapter_start 867;
          Title_end]
  /\ ~ Sorted Z.le [0; 1000; 867]
  /\ Sample.walk 4
     = Done [Title_start; Chapter_start 0; Chapter_start 140540400;
             Chapter_start 978423; Title_end]
  /\ ~ Sorted Z.le [0; 140540400; 978423].
Proof.
  split; [reflexivity|]. split; [|split; [reflexivity|]].
  - intros H. inversion H as [|? ? H1 _]; subst.
    inversion H1 as [|? ? _ H2]; subst. inversion H2; subst. lia.
  - intros H. inversion H as [|? ? H1 _]; subst.
    inversion H1 as [|? ? _ H2]; subst. inversion H2; subst. lia.
Qed.

(** ** The driver *)

Lemma editions_app (xs ys : ostream) :
  editions (xs ++ ys) = (editions xs + editions ys)%nat.
Proof.
  induction xs as [|x xs IH]; [reflexivity|].
  destruct x; cbn [app editions]; rewrite IH; reflexivity.
Qed.

Section Driver.

Variable mt19937_64 : Type.
Variable rnd_draw : mt19937_64 -> Z * mt19937_64.
Variable dvd_reader_t : Type.
Variable DVDOpen2 : string -> option dvd_reader_t.
Variable ifoOpen : dvd_reader_t -> Z -> option ifo_handle_t.
Variable stoi : string -> option Z.
Variable seeded : mt19937_64.

Local Abbreviation xml_writer := (matroska_writer mt19937_64 rnd_draw).
Local Abbreviation walk_xml :=
  (@get_chapters_for_title dvd_reader_t ifoOpen
     (matroska_chapter_xml_writer mt19937_64) xml_writer).

Lemma editions_title_start (w : matroska_chapter_xml_writer mt19937_64) :
  editions (stream_ (@on_title_start _ xml_writer w)) = S (editions (stream_ w)).
Proof.
  cbn [on_title_start matroska_writer]. unfold xml_on_title_start.
  destruct (rnd_draw (rnd_gen_ w)) as [uid g]. cbn [stream_].
  rewrite editions_app. cbn [editions]. lia.
Qed.

Lemma editions_chapter_start (t : Z) (w : matroska_chapter_xml_writer mt19937_64) :
  editions (stream_ (@on_chapter_start _ xml_writer t w)) = editions (stream_ w).
Proof.
  cbn [on_chapter_start matroska_writer]. unfold xml_on_chapter_start.
  destruct (rnd_draw (rnd_gen_ w)) as [uid g]. cbn [stream_].
  rewrite editions_app. cbn [editions]. lia.
Qed.

Lemma editions_title_end (w : matroska_chapter_xml_writer mt19937_64) :
  editions (stream_ (@on_title_end _ xml_writer w)) = editions (stream_ w).
Proof.
  cbn [on_title_end matroska_writer]. unfold xml_on_title_end. cbn [stream_].
  rewrite editions_app. cbn [editions]. lia.
Qed.

Lemma editions_chapters (ts : list Z) :
  forall w : matroska_chapter_xml_writer mt19937_64,
    editions (stream_ (@replay _ xml_writer (map Chapter_start ts) w))
    = editions (stream_ w).
Proof.
  induction ts as [|t ts IH]; intros w; [reflexivity|].
  change (@replay _ xml_writer (map Chapter_start (t :: ts)) w)
    with (@replay _ xml_writer (map Chapter_start ts)
            (@on_chapter_start _ xml_writer t w)).
  rewrite IH. apply editions_chapter_start.
Qed.

(** A completed walk puts exactly one edition on the stream. *)
Lemma walk_one_edition (dvd : dvd_reader_t) (vmg : ifo_handle_t) (title_ix : Z)
    (w w' : matroska_chapter_xml_writer mt19937_64) :
  walk_xml dvd vmg title_ix w = Done w' ->
  editions (stream_ w') = S (editions (stream_ w))
  /\ exists ti, arr_get (title (tt_srpt vmg)) title_ix = Some ti.
Proof.
  rewrite get_chapters_for_title_calls.
  destruct (arr_get (title (tt_srpt vmg)) title_ix) as [ti|]; [|discriminate].
  destruct (ifoOpen dvd (title_set_nr ti)) as [vts|]; [|discriminate].
  destruct (loop_timestamps _ vts (vts_ttn ti) 0 0 0) as [ts|]; [|discriminate].
  intros [= <-]. split; [|exists ti; reflexivity].
  unfold title_calls.
  change (Title_start :: Chapter_start 0 :: map Chapter_start ts ++ [Title_end])
    with ([Title_start] ++ map Chapter_start (0 :: ts) ++ [Title_end]).
  rewrite !replay_app.
  change (@replay _ xml_writer [Title_end] ?x) with (@on_title_end _ xml_writer x).
  rewrite editions_title_end, editions_chapters.
  etransitivity; [apply editions_chapter_start | apply editions_title_start].
Qed.

(** An exception leaves the walker before it writes. *)
Lemma walk_thrown (dvd : dvd_reader_t) (vmg : ifo_handle_t) (title_ix : Z)
    (w w' : matroska_chapter_xml_writer mt19937_64) (ex : libdvdread_exception) :
  walk_xml dvd vmg title_ix w = Thrown ex w' -> w' = w.
Proof.
  rewrite get_chapters_for_title_calls.
  destruct (arr_get (title (tt_srpt vmg)) title_ix) as [ti|]; [|discriminate].
  destruct (ifoOpen dvd (title_set_nr ti)) as [vts|].
  - destruct (loop_timestamps _ vts (vts_ttn ti) 0 0 0); discriminate.
  - intros [= _ <-]. reflexivity.
Qed.

(** The driver with a non-zero title selector [s], as the code has it: if [s]
    is greater than or equal to the enumerated title count, the program reports
    the requested selector and the title count, exits with status 1 and
    writes nothing to the output; otherwise the walker runs exactly once, on
    the title at index [s] of the enumerated titles counted from 0 (the title
    after the [s]-th).  When that walk completes the exit status is 0 and the
    document holds exactly one edition; when the title set fails to open the
    document is empty and the exit status is 1. *)
Theorem main_title_selector :
  forall argv0 path arg s dvd vmg,
    stoi arg = Some s ->
    0 < s < 2 ^ 31 ->
    DVDOpen2 path = Some dvd ->
    ifoOpen dvd 0 = Some vmg ->
    let n := nr_of_srpts (tt_srpt vmg) in
    let result :=
      main mt19937_64 rnd_draw dvd_reader_t DVDOpen2 ifoOpen stoi seeded
           [argv0; path; arg] in
    let walked := walk_xml dvd vmg s (writer_ctor seeded []) in
    (n <= s ->
       result = Some {| exit_status := 1; cout := [];
                        cerr := [Title_requested_but_DVD_has s n;
                                 Messages_reported_by_libdvdread] |})
    /\ (s < n ->
          result = leave_scope walked
          /\ (forall w, walked = Done w ->
                (exists ti, arr_get (title (tt_srpt vmg)) s = Some ti)
                /\ exists r, result = Some r /\ exit_status r = 0
                             /\ editions (cout r) = 1%nat)
          /\ (forall ex w, walked = Thrown ex w ->
                result = Some {| exit_status := 1;
                                 cout := [Xml_prolog; Chapters_close];
                                 cerr := [DVD_read_error ex;
                                          Messages_reported_by_libdvdread] |})).
Proof.
  intros argv0 path arg s dvd vmg Hstoi Hs Hdvd Hvmg n result walked.
  assert (Hu : u32 s = s) by (apply u32_small; lia).
  assert (Hi : to_int32 s = s) by (apply to_int32_small; lia).
  assert (Hmain : result
                  = if s >=? n
                    then Some {| exit_status := 1; cout := [];
                                 cerr := [Title_requested_but_DVD_has s n;
                                          Messages_reported_by_libdvdread] |}
                    else leave_scope walked).
  { subst result walked n. unfold main, parse_title, dvd_open, ifo_open, failed.
    cbn [List.length List.nth Z.of_nat Pos.of_succ_nat Pos.succ Z.eqb Pos.eqb
         orb negb].
    rewrite Hstoi. destruct (Z.ltb_spec s 0) as [Hneg|_]; [lia|].
    rewrite Hu, Hdvd, Hvmg.
    destruct (Z.eqb_spec s 0) as [H0|_]; [lia|].
    rewrite Hi. reflexivity. }
  split.
  - intros Hge. rewrite Hmain.
    destruct (s >=? n) eqn:E; [reflexivity|]. rewrite Z.geb_leb in E.
    apply Z.leb_gt in E. lia.
  - intros Hlt.
    assert (E : (s >=? n) = false) by (rewrite Z.geb_leb; apply Z.leb_gt; exact Hlt).
    rewrite E in Hmain. split; [exact Hmain|]. split.
    + intros w Hw. destruct (walk_one_edition _ _ _ _ _ Hw) as [Hed Hti].
      split; [exact Hti|].
      rewrite Hmain, Hw. eexists. split; [reflexivity|]. split; [reflexivity|].
      cbn [cout]. unfold writer_dtor. rewrite editions_app, Hed. reflexivity.
    + intros ex w Hw. pose proof (walk_thrown _ _ _ _ _ _ Hw) as ->.
      rewrite Hmain, Hw. reflexivity.
Qed.

End Driver.

(** Selector 3 on the three-title sample disc is refused; selector 2 yields
    one edition. *)
Lemma main_title_selector_witness :
  Sample.run_main ["ifo2mkv"; "VIDEO_TS"; "3"]%string
  = Some {| exit_status := 1; cout := [];
            cerr := [Title_requested_but_DVD_has 3 3;
                     Messages_reported_by_libdvdread] |}.
Proof.
  apply (main_title_selector Z Sample.rnd_draw unit Sample.DVDOpen2 Sample.ifoOpen
           Sample.stoi 1000 "ifo2mkv" "VIDEO_TS" "3" 3 tt Sample.vmg
           eq_refl ltac:(lia) eq_refl eq_refl).
  cbn. lia.
Defined.

(** With selector 1 the run walks the title at index 1, the second of the
    three enumerated titles, and its output is not that of the first title. *)
Lemma main_selector_1_walks_second_title :
  Sample.run_main ["ifo2mkv"; "VIDEO_TS"; "1"]%string
  = leave_scope
      (@get_chapters_for_title unit Sample.ifoOpen _ (matroska_writer Z Sample.rnd_draw)
         tt Sample.vmg 1 (writer_ctor 1000 []))
  /\ Sample.run_main ["ifo2mkv"; "VIDEO_TS"; "1"]%string
     <> leave_scope
          (@get_chapters_for_title unit Sample.ifoOpen _ (matroska_writer Z Sample.rnd_draw)
             tt Sample.vmg 0 (writer_ctor 1000 [])).
Proof. split; [reflexivity|]. vm_compute. discriminate. Qed.

(** C1.  The selector is off by one against the claim's 1-based reading.  On
    the three-title sample disc the run with selector 1 emits the edition of
    the title at index 1, the second enumerated title (three chapters), and
    not that of the first title (one chapter).  On a disc with a single title
    the run with selector 1 is refused, with the diagnostic that title 1 was
    requested of a disc that has 1 title, and writes nothing: the first title
    of a disc cannot be selected on its own. *)
Theorem main_selector_off_by_one :
  Sample.run_main ["ifo2mkv"; "VIDEO_TS"; "1"]%string
  = Some {| exit_status := 0;
            cout := [Xml_prolog; Edition_open 1000; Chapter_atom 1001 0 0 0 0 1;
                     Chapter_atom 1002 0 1 0 0 2; Chapter_atom 1003 0 2 0 0 3;
                     Edition_close; Chapters_close];
            cerr := [] |}
  /\ leave_scope
       (@get_chapters_for_title unit Sample.ifoOpen _ (matroska_writer Z Sample.rnd_draw)
          tt Sample.vmg 0 (writer_ctor 1000 []))
     = Some {| exit_status := 0;
               cout := [Xml_prolog; Edition_open 1000; Chapter_atom 1001 0 0 0 0 1;
                        Edition_close; Chapters_close];
               cerr := [] |}
  /\ OneTitle.run_main ["ifo2mkv"; "VIDEO_TS"; "1"]%string
     = Some {| exit_status := 1; cout := [];
               cerr := [Title_requested_but_DVD_has 1 1;
                        Messages_reported_by_libdvdread] |}
  /\ OneTitle.run_main ["ifo2mkv"; "VIDEO_TS"]%string
     = Some {| exit_status := 0;
               cout := [Xml_prolog; Edition_open 1000; Chapter_atom 1001 0 0 0 0 1;
                        Chapter_atom 1002 0 1 0 0 2; Chapter_atom 1003 0 2 0 0 3;
                        Edition_close; Chapters_close];
               cerr := [] |}.
Proof. repeat split. Qed.

(** * Further properties *)

(** ** The writer *)

Lemma rem_bound_nonpos (a b : Z) : a <= 0 -> 0 < b -> - b < Z.rem a b <= 0.
Proof.
  intros Ha Hb. replace a with (- - a) by lia.
  rewrite Z.rem_opp_l by lia.
  pose proof (Z.rem_bound_pos (- a) b ltac:(lia) Hb). lia.
Qed.

Lemma quot_nonpos (a b : Z) : a <= 0 -> 0 < b -> Z.quot a b <= 0.
Proof.
  intros Ha Hb. replace a with (- - a) by lia.
  rewrite Z.quot_opp_l by lia.
  pose proof (Z.quot_pos (- a) b ltac:(lia) Hb). lia.
Qed.

(** Hours, minutes, seconds and milliseconds add up to the timestamp, for
    either sign. *)
Lemma time_fields_sum (t : Z) :
  Z.quot t 3600000 * 3600000 + Z.rem (Z.quot t 60000) 60 * 60000
  + Z.rem (Z.quot t 1000) 60 * 1000 + Z.rem t 1000 = t.
Proof.
  pose proof (Z.quot_rem' t 1000) as H1.
  pose proof (Z.quot_rem' (Z.quot t 1000) 60) as H2.
  pose proof (Z.quot_rem' (Z.quot t 60000) 60) as H3.
  rewrite (Z.quot_quot t 1000 60) in H2 by lia.
  rewrite (Z.quot_quot t 60000 60) in H3 by lia.
  change (1000 * 60) with 60000 in H2. change (60000 * 60) with 3600000 in H3.
  lia.
Qed.

Lemma replay_cons {W} `{Writer W} (c : writer_call) (cs : list writer_call) (w : W) :
  replay (c :: cs) w = replay cs (replay_call c w).
Proof. reflexivity. Qed.

Lemma uids_app (xs ys : ostream) : uids (xs ++ ys) = uids xs ++ uids ys.
Proof.
  induction xs as [|x xs IH]; [reflexivity|].
  destruct x; cbn [app uids]; rewrite IH; reflexivity.
Qed.

Lemma chapter_nums_app (xs ys : ostream) :
  chapter_nums (xs ++ ys) = chapter_nums xs ++ chapter_nums ys.
Proof.
  induction xs as [|x xs IH]; [reflexivity|].
  destruct x; cbn [app chapter_nums]; rewrite IH; reflexivity.
Qed.

Section WriterFacts.

Variable mt19937_64 : Type.
Variable rnd_draw : mt19937_64 -> Z * mt19937_64.

Local Abbreviation xml_writer := (matroska_writer mt19937_64 rnd_draw).
Local Abbreviation xml_replay := (@replay _ xml_writer).
Local Abbreviation xml_call := (@replay_call _ xml_writer).

(** What one call does to the three fields of the writer. *)
Lemma xml_call_stream (c : writer_call) (w : matroska_chapter_xml_writer mt19937_64) :
  stream_ (xml_call c w)
  = stream_ w ++
    [match c with
     | Title_start => Edition_open (fst (rnd_draw (rnd_gen_ w)))
     | Chapter_start t =>
         Chapter_atom (fst (rnd_draw (rnd_gen_ w)))
           (Z.quot t 3600000) (Z.rem (Z.quot t 60000) 60)
           (Z.rem (Z.quot t 1000) 60) (Z.rem t 1000) (chapter_num_ w)
     | Title_end => Edition_close
     end].
Proof.
  destruct c; cbn [replay_call on_title_start on_chapter_start on_title_end
                   matroska_writer];
    unfold xml_on_title_start, xml_on_chapter_start, xml_on_title_end;
    try destruct (rnd_draw (rnd_gen_ w)); reflexivity.
Qed.

Lemma xml_call_rnd_gen (c : writer_call) (w : matroska_chapter_xml_writer mt19937_64) :
  rnd_gen_ (xml_call c w)
  = if draws_uid c then snd (rnd_draw (rnd_gen_ w)) else rnd_gen_ w.
Proof.
  destruct c; cbn [replay_call on_title_start on_chapter_start on_title_end
                   matroska_writer draws_uid];
    unfold xml_on_title_start, xml_on_chapter_start, xml_on_title_end;
    try destruct (rnd_draw (rnd_gen_ w)); reflexivity.
Qed.

Lemma xml_call_chapter_num (c : writer_call) (w : matroska_chapter_xml_writer mt19937_64) :
  chapter_num_ (xml_call c w)
  = match c with
    | Title_start => 1
    | Chapter_start _ => u32 (chapter_num_ w + 1)
    | Title_end => chapter_num_ w
    end.
Proof.
  destruct c; cbn [replay_call on_title_start on_chapter_start on_title_end
                   matroska_writer];
    unfold xml_on_title_start, xml_on_chapter_start, xml_on_title_end;
    try destruct (rnd_draw (rnd_gen_ w)); reflexivity.
Qed.

(** X1.  [on_chapter_start] appends one chapter atom, labelled with the
    current chapter number, whose hour, minute, second and millisecond fields
    add up to the timestamp it was given.  For a timestamp that is not
    negative the fields are those of a clock; for a negative one none of them
    is positive. *)
Theorem on_chapter_start_time_fields :
  forall (t : Z) (w : matroska_chapter_xml_writer mt19937_64),
  exists uid hr min sec ms,
    stream_ (xml_on_chapter_start mt19937_64 rnd_draw t w)
    = stream_ w ++ [Chapter_atom uid hr min sec ms (chapter_num_ w)]
    /\ hr * 3600000 + min * 60000 + sec * 1000 + ms = t
    /\ (0 <= t -> 0 <= hr /\ 0 <= min < 60 /\ 0 <= sec < 60 /\ 0 <= ms < 1000)
    /\ (t <= 0 -> hr <= 0 /\ -60 < min <= 0 /\ -60 < sec <= 0 /\ -1000 < ms <= 0).
Proof.
  intros t w.
  exists (fst (rnd_draw (rnd_gen_ w))), (Z.quot t 3600000),
    (Z.rem (Z.quot t 60000) 60), (Z.rem (Z.quot t 1000) 60), (Z.rem t 1000).
  split; [exact (xml_call_stream (Chapter_start t) w)|].
  split; [apply time_fields_sum|]. split.
  - intros Ht.
    pose proof (Z.quot_pos t 3600000 Ht ltac:(lia)).
    pose proof (Z.quot_pos t 60000 Ht ltac:(lia)).
    pose proof (Z.quot_pos t 1000 Ht ltac:(lia)).
    pose proof (Z.rem_bound_pos (Z.quot t 60000) 60 ltac:(lia) ltac:(lia)).
    pose proof (Z.rem_bound_pos (Z.quot t 1000) 60 ltac:(lia) ltac:(lia)).
    pose proof (Z.rem_bound_pos t 1000 Ht ltac:(lia)).
    lia.
  - intros Ht.
    pose proof (quot_nonpos t 3600000 Ht ltac:(lia)).
    pose proof (quot_nonpos t 60000 Ht ltac:(lia)).
    pose proof (quot_nonpos t 1000 Ht ltac:(lia)).
    pose proof (rem_bound_nonpos (Z.quot t 60000) 60 ltac:(lia) ltac:(lia)).
    pose proof (rem_bound_nonpos (Z.quot t 1000) 60 ltac:(lia) ltac:(lia)).
    pose proof (rem_bound_nonpos t 1000 Ht ltac:(lia)).
    lia.
Qed.

(** The stream only grows, by one item per call. *)
Lemma xml_replay_items :
  forall (cs : list writer_call) (w : matroska_chapter_xml_writer mt19937_64),
  exists items,
    stream_ (xml_replay cs w) = stream_ w ++ items
    /\ Forall2 item_of_call cs items.
Proof.
  induction cs as [|c cs IH]; intros w.
  - exists []. split; [symmetry; apply app_nil_r | constructor].
  - rewrite replay_cons. destruct (IH (xml_call c w)) as [items [E F]].
    rewrite xml_call_stream, <- app_assoc in E.
    eexists. split; [exact E|]. cbn [app]. constructor; [|exact F].
    destruct c; constructor. apply time_fields_sum.
Qed.

(** X2.  Whatever the calls, the writer appends to its stream exactly one
    item per call, in call order: an edition opening for [on_title_start], a
    chapter atom whose time fields add up to the timestamp for
    [on_chapter_start], an edition closing for [on_title_end].  Nothing
    already on the stream is changed. *)
Theorem writer_one_item_per_call :
  forall (cs : list writer_call) (w : matroska_chapter_xml_writer mt19937_64),
  exists items,
    stream_ (xml_replay cs w) = stream_ w ++ items
    /\ Forall2 item_of_call cs items.
Proof. exact xml_replay_items. Qed.

(** Each identifier is the next draw. *)
Lemma xml_replay_uids :
  forall (cs : list writer_call) (w : matroska_chapter_xml_writer mt19937_64),
    let n := List.length (filter draws_uid cs) in
    uids (stream_ (xml_replay cs w))
    = uids (stream_ w) ++ draws mt19937_64 rnd_draw n (rnd_gen_ w)
    /\ rnd_gen_ (xml_replay cs w) = advance mt19937_64 rnd_draw n (rnd_gen_ w).
Proof.
  induction cs as [|c cs IH]; intros w.
  - cbn. rewrite app_nil_r. split; reflexivity.
  - cbv zeta in *. rewrite replay_cons.
    destruct (IH (xml_call c w)) as [E G]. rewrite E, G.
    rewrite xml_call_stream, xml_call_rnd_gen, uids_app.
    destruct c; cbn [filter draws_uid List.length draws advance uids];
      rewrite <- ?app_assoc, ?app_nil_r; split; reflexivity.
Qed.

(** X3.  The identifiers the writer puts on its stream are the successive
    draws of its generator, one draw per title start and per chapter start
    and none for a title end, and the generator is left advanced by that many
    draws: no draw is used for two identifiers. *)
Theorem writer_uids_are_draws :
  forall (cs : list writer_call) (w : matroska_chapter_xml_writer mt19937_64),
    let n := List.length (filter draws_uid cs) in
    uids (stream_ (xml_replay cs w))
    = uids (stream_ w) ++ draws mt19937_64 rnd_draw n (rnd_gen_ w)
    /\ rnd_gen_ (xml_replay cs w) = advance mt19937_64 rnd_draw n (rnd_gen_ w).
Proof. exact xml_replay_uids. Qed.

(** The chapter atoms of a run of chapter starts are numbered from the
    current chapter number on. *)
Lemma chapter_starts_numbered (ts : list Z) :
  forall w : matroska_chapter_xml_writer mt19937_64,
    0 <= chapter_num_ w ->
    chapter_num_ w + Z.of_nat (List.length ts) < 2 ^ 32 ->
    chapter_nums (stream_ (xml_replay (map Chapter_start ts) w))
    = chapter_nums (stream_ w)
      ++ map (fun i => chapter_num_ w + Z.of_nat i) (seq 0 (List.length ts)).
Proof.
  induction ts as [|t ts IH]; intros w H0 Hlt.
  - cbn. rewrite app_nil_r. reflexivity.
  - cbn [map]. rewrite replay_cons.
    assert (En : chapter_num_ (xml_call (Chapter_start t) w) = chapter_num_ w + 1).
    { rewrite xml_call_chapter_num. apply u32_small.
      cbn [List.length] in Hlt. lia. }
    rewrite IH; rewrite En; cbn [List.length] in *; try lia.
    rewrite xml_call_stream, chapter_nums_app. cbn [chapter_nums seq map].
    rewrite <- app_assoc. cbn [app]. rewrite Z.add_0_r. do 2 f_equal.
    rewrite <- seq_shift, map_map. apply map_ext. intros i. lia.
Qed.

(** X4.  Whatever the chapter counter was before, the chapter atoms the
    walker's calls for one title add are labelled 1, 2, 3, ... in order: the
    counter restarts at 1 with every title. *)
Theorem title_chapters_numbered_from_1 :
  forall (ts : list Z) (w : matroska_chapter_xml_writer mt19937_64),
    Z.of_nat (List.length ts) + 2 < 2 ^ 32 ->
    chapter_nums (stream_ (xml_replay (title_calls ts) w))
    = chapter_nums (stream_ w) ++ map Z.of_nat (seq 1 (S (List.length ts))).
Proof.
  intros ts w Hlen. unfold title_calls.
  change (Title_start :: Chapter_start 0 :: map Chapter_start ts ++ [Title_end])
    with ([Title_start] ++ map Chapter_start (0 :: ts) ++ [Title_end]).
  rewrite !replay_app.
  change (xml_replay [Title_end] ?x) with (xml_call Title_end x).
  change (xml_replay [Title_start] w) with (xml_call Title_start w).
  rewrite xml_call_stream, chapter_nums_app. cbn [chapter_nums].
  rewrite app_nil_r.
  rewrite chapter_starts_numbered; rewrite xml_call_chapter_num;
    cbn [List.length]; try lia.
  rewrite xml_call_stream, chapter_nums_app. cbn [chapter_nums].
  rewrite app_nil_r. f_equal.
  rewrite <- seq_shift, map_map. apply map_ext. intros i. lia.
Qed.

End WriterFacts.

(** Two chapters after the implicit one, on a writer whose counter stood
    at 7: the labels are 1, 2, 3. *)
Lemma title_chapters_numbered_from_1_witness :
  chapter_nums
    (stream_ (@replay _ (matroska_writer Z Sample.rnd_draw)
                (title_calls [60000; 120000])
                {| rnd_gen_ := 5; stream_ := []; chapter_num_ := 7 |}))
  = [1; 2; 3].
Proof.
  apply (title_chapters_numbered_from_1 Z Sample.rnd_draw [60000; 120000]
           {| rnd_gen_ := 5; stream_ := []; chapter_num_ := 7 |}).
  vm_compute. reflexivity.
Defined.

(** ** The walker *)

(** X5.  The walker treats its writer as a black box: on any writer its
    result is the replay, on that writer, of the calls it makes on the
    recording writer; when the title set fails to open the writer comes back
    as it was given. *)
Theorem walker_writer_independent :
  forall (W : Type) (HW : Writer W) (dvd_reader_t : Type)
         (ifoOpen : dvd_reader_t -> Z -> option ifo_handle_t)
         dvd vmg title_ix (writer : W),
    get_chapters_for_title dvd_reader_t ifoOpen dvd vmg title_ix writer
    = match get_chapters_for_title dvd_reader_t ifoOpen dvd vmg title_ix
              ([] : list writer_call) with
      | Done calls => Done (replay calls writer)
      | Thrown ex _ => Thrown ex writer
      | Undefined => Undefined
      end.
Proof.
  intros W HW dvd_reader_t ifoOpen dvd vmg title_ix writer.
  rewrite !get_chapters_for_title_calls.
  destruct (arr_get (title (tt_srpt vmg)) title_ix) as [ti|]; [|reflexivity].
  destruct (ifoOpen dvd (title_set_nr ti)) as [vts|]; [|reflexivity].
  destruct (loop_timestamps _ vts (vts_ttn ti) 0 0 0) as [ts|]; [|reflexivity].
  rewrite replay_log. reflexivity.
Qed.

Lemma loop_timestamps_length (n : nat) (vts : ifo_handle_t) (ttn : Z) :
  forall chapter overall_frames fps ts,
    loop_timestamps n vts ttn chapter overall_frames fps = Some ts ->
    List.length ts = n.
Proof.
  induction n as [|n IH]; intros chapter overall_frames fps ts;
    cbn [loop_timestamps].
  - intros [= <-]. reflexivity.
  - destruct (chapter_body vts ttn chapter overall_frames fps) as [[o f]|];
      [|discriminate].
    destruct (loop_timestamps n vts ttn (chapter + 1) o f) as [ts'|] eqn:E;
      [|discriminate].
    intros [= <-]. cbn [List.length]. f_equal. eapply IH, E.
Qed.

(** The loop is defined exactly when the cells of every chapter can be
    read. *)
Lemma loop_timestamps_defined (n : nat) (vts : ifo_handle_t) (ttn : Z) :
  forall chapter overall_frames fps,
    loop_timestamps n vts ttn chapter overall_frames fps = None
    <-> title_cells n vts ttn chapter = None.
Proof.
  induction n as [|n IH]; intros chapter overall_frames fps;
    cbn [loop_timestamps title_cells].
  - split; discriminate.
  - rewrite chapter_body_spec.
    destruct (chapter_cells vts ttn chapter) as [cs|]; [|split; reflexivity].
    specialize (IH (chapter + 1) (u32 (overall_frames + u32 (total_frames cs)))
                   (last_fps cs fps)).
    destruct (loop_timestamps n vts ttn (chapter + 1) _ _) as [ts|];
      destruct (title_cells n vts ttn (chapter + 1)) as [rest|]; cbn [option_map].
    + split; discriminate.
    + destruct IH as [_ IH]. discriminate (IH eq_refl).
    + destruct IH as [IH _]. discriminate (IH eq_refl).
    + split; reflexivity.
Qed.

(** X6.  A completed walk of a title makes, in this order, one
    [on_title_start] call, one [on_chapter_start] call per chapter marker of
    the title (a single one, at 0, when the title has no marker or one) and
    one [on_title_end] call. *)
Theorem walker_calls_per_marker :
  forall (dvd_reader_t : Type) (ifoOpen : dvd_reader_t -> Z -> option ifo_handle_t)
         dvd vmg title_ix log,
    get_chapters_for_title dvd_reader_t ifoOpen dvd vmg title_ix
      ([] : list writer_call) = Done log ->
    exists ti ts,
      arr_get (title (tt_srpt vmg)) title_ix = Some ti
      /\ log = Title_start :: map Chapter_start (0 :: ts) ++ [Title_end]
      /\ Z.of_nat (List.length (0 :: ts)) = Z.max 1 (nr_of_ptts ti).
Proof.
  intros dvd_reader_t ifoOpen dvd vmg title_ix log.
  rewrite get_chapters_for_title_calls.
  destruct (arr_get (title (tt_srpt vmg)) title_ix) as [ti|]; [|discriminate].
  destruct (ifoOpen dvd (title_set_nr ti)) as [vts|]; [|discriminate].
  destruct (loop_timestamps _ vts (vts_ttn ti) 0 0 0) as [ts|] eqn:E; [|discriminate].
  intros [= <-]. exists ti, ts. split; [reflexivity|].
  split; [rewrite replay_log; reflexivity|].
  cbn [List.length]. rewrite (loop_timestamps_length _ _ _ _ _ _ _ E). lia.
Qed.

Lemma walker_calls_per_marker_witness :
  exists ti ts,
    arr_get (title (tt_srpt Sample.vmg_walk)) 1 = Some ti
    /\ [Title_start; Chapter_start 0; Chapter_start 60000; Chapter_start 120000;
        Title_end]
       = Title_start :: map Chapter_start (0 :: ts) ++ [Title_end]
    /\ Z.of_nat (List.length (0 :: ts)) = Z.max 1 (nr_of_ptts ti).
Proof.
  exact (walker_calls_per_marker unit (Sample.ifoOpen_with Sample.vmg_walk) tt
           Sample.vmg_walk 1 _ eq_refl).
Defined.

(** X7.  The three outcomes of the walker.  It throws exactly when the
    title's entry exists and its title set does not open, and then names the
    title set; it is left undefined exactly when the title index lies outside
    the title table or, the title set being open, a marker, program chain,
    program or cell the chapter loop reads lies outside its table; in every
    other case it completes. *)
Theorem walker_outcomes :
  forall (W : Type) (HW : Writer W) (dvd_reader_t : Type)
         (ifoOpen : dvd_reader_t -> Z -> option ifo_handle_t)
         dvd vmg title_ix (writer : W),
    let walked :=
      get_chapters_for_title dvd_reader_t ifoOpen dvd vmg title_ix writer in
    (forall ex w,
        walked = Thrown ex w <->
        exists ti, arr_get (title (tt_srpt vmg)) title_ix = Some ti
                   /\ ifoOpen dvd (title_set_nr ti) = None
                   /\ ex = Failed_to_open_IFO (title_set_nr ti) /\ w = writer)
    /\ (walked = Undefined <->
        arr_get (title (tt_srpt vmg)) title_ix = None
        \/ exists ti vts,
             arr_get (title (tt_srpt vmg)) title_ix = Some ti
             /\ ifoOpen dvd (title_set_nr ti) = Some vts
             /\ title_cells (Z.to_nat (nr_of_ptts ti - 1)) vts (vts_ttn ti) 0 = None)
    /\ ((exists w, walked = Done w) <->
        exists ti vts cells,
          arr_get (title (tt_srpt vmg)) title_ix = Some ti
          /\ ifoOpen dvd (title_set_nr ti) = Some vts
          /\ title_cells (Z.to_nat (nr_of_ptts ti - 1)) vts (vts_ttn ti) 0
             = Some cells).
Proof.
  intros W HW dvd_reader_t ifoOpen dvd vmg title_ix writer walked.
  subst walked. rewrite get_chapters_for_title_calls.
  destruct (arr_get (title (tt_srpt vmg)) title_ix) as [ti|].
  2:{ split; [|split].
      - intros ex w. split; [discriminate|]. intros [ti [H _]]. discriminate.
      - split; [left; reflexivity | reflexivity].
      - split; [intros [w H]; discriminate | intros [ti [vts [cs [H _]]]]; discriminate]. }
  destruct (ifoOpen dvd (title_set_nr ti)) as [vts|] eqn:Evts.
  2:{ split; [|split].
      - intros ex w. split.
        + intros [= <- <-]. exists ti. repeat split; assumption.
        + intros [ti' [[= <-] [_ [-> ->]]]]. reflexivity.
      - split; [discriminate|].
        intros [H | [ti' [vts [[= <-] [H _]]]]]; [discriminate | congruence].
      - split; [intros [w H]; discriminate|].
        intros [ti' [vts [cs [[= <-] [H _]]]]]. congruence. }
  pose proof (loop_timestamps_defined (Z.to_nat (nr_of_ptts ti - 1)) vts
                (vts_ttn ti) 0 0 0) as D.
  destruct (loop_timestamps _ vts (vts_ttn ti) 0 0 0) as [ts|].
  - destruct (title_cells _ vts (vts_ttn ti) 0) as [cells|] eqn:Ec;
      [|destruct D as [_ D]; discriminate (D eq_refl)].
    split; [|split].
    + intros ex w. split; [discriminate|].
      intros [ti' [[= <-] [H _]]]. congruence.
    + split; [discriminate|].
      intros [H | [ti' [vts' [[= <-] [H1 H2]]]]]; [discriminate|].
      rewrite Evts in H1. injection H1 as <-. congruence.
    + split; [|intros _; eexists; reflexivity].
      intros _. exists ti, vts, cells. repeat split; assumption.
  - destruct D as [D _]. specialize (D eq_refl).
    split; [|split].
    + intros ex w. split; [discriminate|].
      intros [ti' [[= <-] [H _]]]. congruence.
    + split; [|reflexivity]. intros _. right. exists ti, vts.
      repeat split; assumption.
    + split; [intros [w H]; discriminate|].
      intros [ti' [vts' [cs [[= <-] [H1 H2]]]]].
      rewrite Evts in H1. injection H1 as <-. congruence.
Qed.

Lemma last_fps_admissible (cells : list cell_playback_t) (fps : Z) :
  cells = [] \/ last_fps cells fps = 25 \/ last_fps cells fps = 30.
Proof.
  destruct cells as [|c cells] using rev_ind; [left; reflexivity|].
  right. rewrite last_fps_app. apply cell_fps_admissible.
Qed.

Lemma frames_to_timestamp_ms_bound (n r : Z) :
  r = 25 \/ r = 30 -> 0 <= frames_to_timestamp_ms n r <= 171798691.
Proof.
  intros Hr. pose proof (u32_range (fps_factor r * n)) as Hu.
  unfold frames_to_timestamp_ms.
  assert (Hd : fps_divisor r = r) by (destruct Hr as [-> | ->]; reflexivity).
  rewrite Hd.
  assert (Hq : 0 <= u32 (fps_factor r * n) / r <= 171798691).
  { split; [apply Z.div_pos; lia|].
    apply Z.lt_succ_r, Z.div_lt_upper_bound; lia. }
  rewrite to_int32_small; lia.
Qed.

Lemma loop_timestamps_bound (n : nat) (vts : ifo_handle_t) (ttn : Z) :
  forall chapter overall_frames fps ts,
    loop_timestamps n vts ttn chapter overall_frames fps = Some ts ->
    overall_frames = 0 \/ fps = 25 \/ fps = 30 ->
    Forall (fun t => 0 <= t <= 171798691) ts.
Proof.
  induction n as [|n IH]; intros chapter o fps ts; cbn [loop_timestamps].
  - intros [= <-] _. constructor.
  - rewrite chapter_body_spec.
    destruct (chapter_cells vts ttn chapter) as [cs|]; [|discriminate].
    destruct (loop_timestamps n vts ttn (chapter + 1) _ _) as [ts'|] eqn:E;
      [|discriminate].
    cbn [option_map]. intros [= <-] Hinv.
    assert (Hinv' : u32 (o + u32 (total_frames cs)) = 0
                    \/ last_fps cs fps = 25 \/ last_fps cs fps = 30).
    { destruct (last_fps_admissible cs fps) as [-> | H]; [|right; exact H].
      destruct Hinv as [-> | H]; [left; reflexivity | right; exact H]. }
    constructor; [|exact (IH _ _ _ _ E Hinv')].
    destruct Hinv' as [-> | H].
    + rewrite frames_to_timestamp_ms_0. lia.
    + apply frames_to_timestamp_ms_bound, H.
Qed.

(** X8.  Every timestamp the walker hands to its writer lies between 0 and
    171798691 ms (the largest 32-bit count divided by 25): whatever the
    navigation tables hold, no chapter start is negative or reaches 48
    hours. *)
Theorem walker_timestamps_in_range :
  forall (dvd_reader_t : Type) (ifoOpen : dvd_reader_t -> Z -> option ifo_handle_t)
         dvd vmg title_ix log,
    get_chapters_for_title dvd_reader_t ifoOpen dvd vmg title_ix
      ([] : list writer_call) = Done log ->
    Forall (fun t => 0 <= t <= 171798691 /\ Z.quot t 3600000 <= 47)
           (chapter_timestamps log).
Proof.
  intros dvd_reader_t ifoOpen dvd vmg title_ix log.
  rewrite get_chapters_for_title_calls.
  destruct (arr_get (title (tt_srpt vmg)) title_ix) as [ti|]; [|discriminate].
  destruct (ifoOpen dvd (title_set_nr ti)) as [vts|]; [|discriminate].
  destruct (loop_timestamps _ vts (vts_ttn ti) 0 0 0) as [ts|] eqn:E; [|discriminate].
  intros [= <-]. rewrite replay_log. unfold title_calls.
  cbn [app chapter_timestamps].
  rewrite chapter_timestamps_app, chapter_timestamps_map.
  cbn [chapter_timestamps]. rewrite app_nil_r.
  assert (H : Forall (fun t => 0 <= t <= 171798691) (0 :: ts)).
  { constructor; [lia|].
    exact (loop_timestamps_bound _ _ _ _ _ _ _ E (or_introl eq_refl)). }
  eapply Forall_impl; [|exact H]. cbv beta. intros t Ht. split; [exact Ht|].
  apply Z.lt_succ_r. apply Z.quot_lt_upper_bound; lia.
Qed.

(** The 40-hour sample title: its wrapped timestamps stay in range. *)
Lemma walker_timestamps_in_range_witness :
  Forall (fun t => 0 <= t <= 171798691 /\ Z.quot t 3600000 <= 47)
         [0; 140540400; 978423].
Proof.
  exact (walker_timestamps_in_range unit (Sample.ifoOpen_with Sample.vmg_walk) tt
           Sample.vmg_walk 4 _ eq_refl).
Defined.

(** X9.  When the next marker's cell minus 2 lies below this marker's cell
    minus 1 (the two markers name the same cell, say), the cell loop makes no
    pass: no cell is read, the frame counter and the rate are left as they
    were, and the chapter starts at the timestamp of the previous one. *)
Theorem empty_cell_range_adds_nothing :
  forall vts ttn chapter overall_frames fps m m' pgc_m pgc_m' c c',
    marker_at vts ttn chapter = Some m ->
    marker_at vts ttn (chapter + 1) = Some m' ->
    marker_pgc vts m = Some pgc_m ->
    marker_pgc vts m' = Some pgc_m' ->
    marker_cell pgc_m m = Some c ->
    marker_cell pgc_m' m' = Some c' ->
    c' - 2 < c - 1 ->
    0 <= overall_frames < 2 ^ 32 ->
    chapter_body vts ttn chapter overall_frames fps = Some (overall_frames, fps)
    /\ loop_timestamps 1 vts ttn chapter overall_frames fps
       = Some [frames_to_timestamp_ms overall_frames fps].
Proof.
  intros vts ttn chapter o fps m m' pgc_m pgc_m' c c' Hm Hm' Hp Hp' Hc Hc' Hlt Ho.
  assert (B : chapter_body vts ttn chapter o fps = Some (o, fps)).
  { unfold chapter_body. rewrite Hm, Hp, Hc, Hm', Hp', Hc'. cbv zeta.
    replace (Z.to_nat (c' - 2 + 1 - (c - 1))) with O by lia.
    cbn [cell_loop]. rewrite Z.add_0_r, u32_small by exact Ho. reflexivity. }
  split; [exact B|]. cbn [loop_timestamps]. rewrite B. reflexivity.
Qed.

(** Two markers on the same cell, the first cell of the chain: the range
    runs from cell 0 to cell -1. *)
Lemma empty_cell_range_adds_nothing_witness :
  chapter_body (Sample.vts_of [1; 2] [1; 1] [Sample.cell 0 1 0 64]) 1 0 1500 25
  = Some (1500, 25).
Proof.
  apply (empty_cell_range_adds_nothing
           (Sample.vts_of [1; 2] [1; 1] [Sample.cell 0 1 0 64]) 1 0 1500 25
           {| pgcn := 1; pgn := 1 |} {| pgcn := 1; pgn := 2 |}
           {| program_map := [1; 1]; cell_playback := [Sample.cell 0 1 0 64] |}
           {| program_map := [1; 1]; cell_playback := [Sample.cell 0 1 0 64] |}
           1 1 eq_refl eq_refl eq_refl eq_refl eq_refl eq_refl);
    lia.
Defined.

Lemma loop_timestamps_prefix (n : nat) (vts : ifo_handle_t) (ttn : Z) :
  forall chapter overall_frames fps ts,
    loop_timestamps n vts ttn chapter overall_frames fps = Some ts ->
    forall k t,
      nth_error ts k = Some t ->
      exists cells,
        title_cells (S k) vts ttn chapter = Some cells
        /\ t = frames_to_timestamp_ms (u32 (overall_frames + total_frames cells))
                                      (last_fps cells fps).
Proof.
  induction n as [|n IH]; intros chapter o fps ts; cbn [loop_timestamps].
  - intros [= <-] [|k] t; discriminate.
  - rewrite chapter_body_spec.
    destruct (chapter_cells vts ttn chapter) as [cs|] eqn:Ecs; [|discriminate].
    destruct (loop_timestamps n vts ttn (chapter + 1) _ _) as [ts'|] eqn:E;
      [|discriminate].
    cbn [option_map]. intros [= <-] [|k] t; cbn [nth_error].
    + intros [= <-]. exists (cs ++ []).
      split; [cbn [title_cells]; rewrite Ecs; reflexivity|].
      rewrite app_nil_r, u32_add_r. reflexivity.
    + intros Ht. destruct (IH _ _ _ _ E k t Ht) as [rest [Hrest ->]].
      exists (cs ++ rest). split.
      * change (title_cells (S (S k)) vts ttn chapter)
          with (match chapter_cells vts ttn chapter with
                | None => None
                | Some cs => option_map (app cs) (title_cells (S k) vts ttn (chapter + 1))
                end).
        rewrite Ecs, Hrest. reflexivity.
      * rewrite u32_add_r, u32_add_l, total_frames_app, last_fps_app, Z.add_assoc.
        reflexivity.
Qed.

(** X10.  The frame counter never restarts within a title: the timestamp of
    the chapter start after marker [k + 1] converts the frame total, modulo
    2^32, of all the cells read for the chapters 0 to [k], at the rate of the
    last of those cells (at rate 0 when there is none). *)
Theorem walker_timestamps_cumulative :
  forall (dvd_reader_t : Type) (ifoOpen : dvd_reader_t -> Z -> option ifo_handle_t)
         dvd vmg title_ix log,
    get_chapters_for_title dvd_reader_t ifoOpen dvd vmg title_ix
      ([] : list writer_call) = Done log ->
    exists ti vts,
      arr_get (title (tt_srpt vmg)) title_ix = Some ti
      /\ ifoOpen dvd (title_set_nr ti) = Some vts
      /\ forall k t,
           nth_error (chapter_timestamps log) (S k) = Some t ->
           exists cells,
             title_cells (S k) vts (vts_ttn ti) 0 = Some cells
             /\ t = frames_to_timestamp_ms (u32 (total_frames cells))
                                           (last_fps cells 0).
Proof.
  intros dvd_reader_t ifoOpen dvd vmg title_ix log.
  rewrite get_chapters_for_title_calls.
  destruct (arr_get (title (tt_srpt vmg)) title_ix) as [ti|]; [|discriminate].
  destruct (ifoOpen dvd (title_set_nr ti)) as [vts|] eqn:Evts; [|discriminate].
  destruct (loop_timestamps _ vts (vts_ttn ti) 0 0 0) as [ts|] eqn:E; [|discriminate].
  intros [= <-]. rewrite replay_log. unfold title_calls.
  cbn [app chapter_timestamps].
  rewrite chapter_timestamps_app, chapter_timestamps_map.
  cbn [chapter_timestamps]. rewrite app_nil_r.
  exists ti, vts. split; [reflexivity|]. split; [exact Evts|].
  intros k t Ht. cbn [nth_error] in Ht.
  destruct (loop_timestamps_prefix _ _ _ _ _ _ _ E k t Ht) as [cells [Hc ->]].
  exists cells. split; [exact Hc|]. rewrite Z.add_0_l. reflexivity.
Qed.

(** The PAL sample title: its third chapter starts after the two cells of
    one minute read so far, 3000 frames. *)
Lemma walker_timestamps_cumulative_witness :
  exists cells,
    title_cells 2 Sample.vts_pal 1 0 = Some cells
    /\ 120000 = frames_to_timestamp_ms (u32 (total_frames cells)) (last_fps cells 0).
Proof.
  destruct (walker_timestamps_cumulative unit (Sample.ifoOpen_with Sample.vmg_walk) tt
              Sample.vmg_walk 1 _ eq_refl)
    as [ti [vts [Hti [Hvts H]]]].
  injection Hti as <-. injection Hvts as <-.
  exact (H 1%nat 120000 eq_refl).
Defined.

(** ** Documents *)

Lemma editions_nested_app (xs : ostream) :
  forall inside ys,
    editions_nested inside xs = true ->
    editions_nested inside (xs ++ ys) = editions_nested false ys.
Proof.
  induction xs as [|x xs IH]; intros inside ys H.
  - destruct inside; [discriminate | reflexivity].
  - destruct x; cbn [app editions_nested] in *; try discriminate;
      destruct inside; cbn [negb andb] in *; try discriminate; apply IH, H.
Qed.

Lemma clock_fields_app (h : Z) (xs ys : ostream) :
  clock_fields h (xs ++ ys) <-> clock_fields h xs /\ clock_fields h ys.
Proof.
  induction xs as [|x xs IH]; cbn [app clock_fields]; [tauto|].
  destruct x; tauto.
Qed.

(** The items of the calls for one title form one complete edition. *)
Lemma title_items_one_edition (ts : list Z) (items : ostream) :
  Forall2 item_of_call (title_calls ts) items ->
  editions_nested false items = true /\ editions items = 1%nat.
Proof.
  unfold title_calls. intros H.
  inversion H as [|c0 i0 cs0 items0 H0 Hrest]; subst. inversion H0; subst.
  clear H H0. cbn [editions_nested editions negb andb].
  change (Chapter_start 0 :: map Chapter_start ts ++ [Title_end])
    with (map Chapter_start (0 :: ts) ++ [Title_end]) in Hrest.
  revert items0 Hrest. generalize (0 :: ts) as l.
  induction l as [|t l IH]; intros items Hrest.
  - inversion Hrest as [|c1 i1 cs1 items1 H1 Hnil]; subst.
    inversion H1; subst. inversion Hnil; subst. split; reflexivity.
  - inversion Hrest as [|c1 i1 cs1 items1 H1 Htl]; subst.
    inversion H1; subst. cbn [editions_nested editions andb]. apply IH, Htl.
Qed.

Section DriverFacts.

Variable mt19937_64 : Type.
Variable rnd_draw : mt19937_64 -> Z * mt19937_64.
Variable dvd_reader_t : Type.
Variable DVDOpen2 : string -> option dvd_reader_t.
Variable ifoOpen : dvd_reader_t -> Z -> option ifo_handle_t.
Variable stoi : string -> option Z.
Variable seeded : mt19937_64.

Local Abbreviation xml_writer := (matroska_writer mt19937_64 rnd_draw).
Local Abbreviation xml_replay := (@replay _ xml_writer).
Local Abbreviation xml_call := (@replay_call _ xml_writer).
Local Abbreviation walk_xml :=
  (@get_chapters_for_title dvd_reader_t ifoOpen
     (matroska_chapter_xml_writer mt19937_64) xml_writer).
Local Abbreviation run_main :=
  (main mt19937_64 rnd_draw dvd_reader_t DVDOpen2 ifoOpen stoi seeded).
Local Abbreviation all_titles :=
  (titles_loop mt19937_64 rnd_draw dvd_reader_t ifoOpen).

Lemma chapter_starts_clock (ts : list Z) :
  Forall (fun t => 0 <= t <= 171798691) ts ->
  forall w items,
    stream_ (xml_replay (map Chapter_start ts) w) = stream_ w ++ items ->
    clock_fields 47 items.
Proof.
  induction 1 as [|t ts Ht _ IH]; intros w items E.
  - cbn in E. rewrite <- (app_nil_r (stream_ w)) in E at 1.
    apply app_inv_head in E. subst items. exact I.
  - cbn [map] in E. rewrite replay_cons in E.
    destruct (xml_replay_items mt19937_64 rnd_draw (map Chapter_start ts)
                (xml_call (Chapter_start t) w)) as [rest [Er _]].
    rewrite Er, xml_call_stream, <- app_assoc in E.
    apply app_inv_head in E. subst items. cbn [app clock_fields].
    split.
    + pose proof (Z.quot_pos t 3600000 ltac:(lia) ltac:(lia)).
      pose proof (Z.quot_pos t 60000 ltac:(lia) ltac:(lia)).
      pose proof (Z.quot_pos t 1000 ltac:(lia) ltac:(lia)).
      pose proof (Z.rem_bound_pos (Z.quot t 60000) 60 ltac:(lia) ltac:(lia)).
      pose proof (Z.rem_bound_pos (Z.quot t 1000) 60 ltac:(lia) ltac:(lia)).
      pose proof (Z.rem_bound_pos t 1000 ltac:(lia) ltac:(lia)).
      assert (Z.quot t 3600000 <= 47)
        by (apply Z.lt_succ_r, Z.quot_lt_upper_bound; lia).
      lia.
    + apply (IH (xml_call (Chapter_start t) w)).
      rewrite Er. reflexivity.
Qed.

(** A completed walk appends one complete edition with clock times. *)
Lemma walk_appends_edition (dvd : dvd_reader_t) (vmg : ifo_handle_t) (title_ix : Z)
    (w w' : matroska_chapter_xml_writer mt19937_64) :
  walk_xml dvd vmg title_ix w = Done w' ->
  exists items,
    stream_ w' = stream_ w ++ items
    /\ editions_nested false items = true
    /\ editions items = 1%nat
    /\ clock_fields 47 items.
Proof.
  rewrite get_chapters_for_title_calls.
  destruct (arr_get (title (tt_srpt vmg)) title_ix) as [ti|]; [|discriminate].
  destruct (ifoOpen dvd (title_set_nr ti)) as [vts|]; [|discriminate].
  destruct (loop_timestamps _ vts (vts_ttn ti) 0 0 0) as [ts|] eqn:E; [|discriminate].
  intros [= <-].
  destruct (xml_replay_items mt19937_64 rnd_draw (title_calls ts) w)
    as [items [Ei Fi]].
  exists items. split; [exact Ei|].
  destruct (title_items_one_edition ts items Fi) as [Hn He].
  split; [exact Hn|]. split; [exact He|].
  (* the time fields *)
  pose proof (loop_timestamps_bound _ _ _ _ _ _ _ E (or_introl eq_refl)) as Hb.
  assert (Hb0 : Forall (fun t => 0 <= t <= 171798691) (0 :: ts))
    by (constructor; [lia | exact Hb]).
  unfold title_calls in Ei.
  change (Title_start :: Chapter_start 0 :: map Chapter_start ts ++ [Title_end])
    with ([Title_start] ++ map Chapter_start (0 :: ts) ++ [Title_end]) in Ei.
  rewrite !replay_app in Ei.
  change (xml_replay [Title_end] ?x) with (xml_call Title_end x) in Ei.
  change (xml_replay [Title_start] w) with (xml_call Title_start w) in Ei.
  destruct (xml_replay_items mt19937_64 rnd_draw (map Chapter_start (0 :: ts))
              (xml_call Title_start w)) as [atoms [Ea _]].
  pose proof (chapter_starts_clock (0 :: ts) Hb0 _ _ Ea) as Hc.
  rewrite xml_call_stream, Ea, xml_call_stream, <- !app_assoc in Ei.
  apply app_inv_head in Ei. subst items.
  cbn [app clock_fields]. apply clock_fields_app. split; [exact Hc | exact I].
Qed.

Lemma walk_keeps_open_document (dvd : dvd_reader_t) (vmg : ifo_handle_t)
    (title_ix : Z) (w w' : matroska_chapter_xml_writer mt19937_64) :
  walk_xml dvd vmg title_ix w = Done w' -> open_document w -> open_document w'.
Proof.
  intros Hw [body [Es [Hn Hc]]].
  destruct (walk_appends_edition _ _ _ _ _ Hw) as [items [Ei [Hni [_ Hci]]]].
  exists (body ++ items). split; [rewrite Ei, Es; reflexivity|]. split.
  - rewrite (editions_nested_app body false items Hn). exact Hni.
  - apply clock_fields_app. split; assumption.
Qed.

Lemma writer_ctor_open_document : open_document (writer_ctor seeded []).
Proof. exists []. repeat split. Qed.

(** The titles loop stops at the first title that does not complete, and
    hands on the writer with the editions of the titles before it. *)
Lemma titles_loop_open_document (dvd : dvd_reader_t) (vmg : ifo_handle_t) (n : nat) :
  forall t w,
    open_document w ->
    match all_titles n dvd vmg t w with
    | Done w' => open_document w' /\ editions (stream_ w') = (editions (stream_ w) + n)%nat
    | Thrown _ w' => open_document w'
    | Undefined => True
    end.
Proof.
  induction n as [|n IH]; intros t w Hw; cbn [titles_loop].
  - split; [exact Hw | lia].
  - destruct (walk_xml dvd vmg (to_int32 t) w) as [w1|ex w1|] eqn:E; [| |exact I].
    + pose proof (walk_keeps_open_document _ _ _ _ _ E Hw) as Hw1.
      destruct (walk_one_edition _ _ _ _ _ _ _ _ _ E) as [He _].
      specialize (IH (u32 (t + 1)) w1 Hw1).
      destruct (all_titles n dvd vmg (u32 (t + 1)) w1) as [w2|ex w2|];
        [|exact IH | exact I].
      destruct IH as [Hw2 He2]. split; [exact Hw2 | lia].
    + rewrite (walk_thrown _ _ _ _ _ _ _ _ _ _ E). exact Hw.
Qed.

Lemma leave_scope_closed (o : outcome (matroska_chapter_xml_writer mt19937_64)) (r : run) :
  leave_scope o = Some r ->
  match o with
  | Done w | Thrown _ w => open_document w
  | Undefined => True
  end ->
  (exit_status r = 0 \/ exit_status r = 1)
  /\ (exit_status r = 0 <-> cerr r = [])
  /\ closed_document (cout r)
  /\ clock_fields 47 (cout r).
Proof.
  destruct o as [w|ex w|]; cbn [leave_scope]; [| |discriminate];
    intros [= <-] [body [Es [Hn Hc]]]; cbn [exit_status cerr cout];
    unfold writer_dtor; rewrite Es.
  - split; [left; reflexivity|]. split; [tauto|]. split.
    + exists body. split; [reflexivity | exact Hn].
    + cbn [app clock_fields]. apply clock_fields_app. split; [exact Hc | exact I].
  - split; [right; reflexivity|]. split; [split; discriminate|]. split.
    + exists body. split; [reflexivity | exact Hn].
    + cbn [app clock_fields]. apply clock_fields_app. split; [exact Hc | exact I].
Qed.

(** X11.  Whatever the arguments and whatever the disc holds, a run that
    ends ends with status 0 or 1, and with status 0 exactly when nothing was
    written to the diagnostic stream.  Its output is either empty, and then
    the status is 1, or one closed document: the prolog, complete editions
    (an opening, chapter atoms, a closing) and the closing tag, also when an
    exception ended the run early.  Every chapter time in it is a clock time
    with at most 47 hours. *)
Theorem main_document_closed :
  forall argv r,
    run_main argv = Some r ->
    (exit_status r = 0 \/ exit_status r = 1)
    /\ (exit_status r = 0 <-> cerr r = [])
    /\ ((cout r = [] /\ exit_status r = 1) \/ closed_document (cout r))
    /\ clock_fields 47 (cout r).
Proof.
  intros argv r.
  assert (Hfailed : forall d ds, failed (d :: ds) = Some r ->
            (exit_status r = 0 \/ exit_status r = 1)
            /\ (exit_status r = 0 <-> cerr r = [])
            /\ ((cout r = [] /\ exit_status r = 1) \/ closed_document (cout r))
            /\ clock_fields 47 (cout r)).
  { intros d ds [= <-]. cbn. repeat split; try (right; reflexivity);
      try discriminate. left. split; reflexivity. }
  assert (Hleave : forall o : outcome (matroska_chapter_xml_writer mt19937_64),
            leave_scope o = Some r ->
            match o with
            | Done w | Thrown _ w => open_document w
            | Undefined => True
            end ->
            (exit_status r = 0 \/ exit_status r = 1)
            /\ (exit_status r = 0 <-> cerr r = [])
            /\ ((cout r = [] /\ exit_status r = 1) \/ closed_document (cout r))
            /\ clock_fields 47 (cout r)).
  { intros o Ho Hopen.
    destruct (leave_scope_closed o r Ho Hopen) as [H1 [H2 [H3 H4]]].
    repeat split; try tauto. }
  unfold main.
  destruct (negb _); [destruct argv; [discriminate | apply Hfailed]|].
  destruct (parse_title stoi argv) as [title_no|d]; [|apply Hfailed].
  unfold dvd_open. destruct (DVDOpen2 _) as [dvd|]; [|apply Hfailed].
  unfold ifo_open. destruct (ifoOpen dvd 0) as [vmg|]; [|apply Hfailed].
  destruct (title_no =? 0).
  - intros Hr. apply (Hleave _ Hr).
    pose proof (titles_loop_open_document dvd vmg
                  (Z.to_nat (nr_of_srpts (tt_srpt vmg))) 0 _
                  writer_ctor_open_document) as H.
    destruct (all_titles _ dvd vmg 0 _); tauto.
  - destruct (title_no >=? _); [apply Hfailed|].
    intros Hr. apply (Hleave _ Hr).
    destruct (walk_xml dvd vmg (to_int32 title_no) (writer_ctor seeded []))
      as [w|ex w|] eqn:E; [| |exact I].
    + exact (walk_keeps_open_document _ _ _ _ _ E writer_ctor_open_document).
    + rewrite (walk_thrown _ _ _ _ _ _ _ _ _ _ E). exact writer_ctor_open_document.
Qed.

End DriverFacts.

(** The run over all titles of the sample disc. *)
Lemma main_document_closed_witness :
  closed_document
    [Xml_prolog; Edition_open 1000; Chapter_atom 1001 0 0 0 0 1; Edition_close;
     Edition_open 1002; Chapter_atom 1003 0 0 0 0 1; Chapter_atom 1004 0 1 0 0 2;
     Chapter_atom 1005 0 2 0 0 3; Edition_close; Edition_open 1006;
     Chapter_atom 1007 0 0 0 0 1; Chapter_atom 1008 0 0 11 678 2; Edition_close;
     Chapters_close].
Proof.
  destruct (main_document_closed Z Sample.rnd_draw unit Sample.DVDOpen2
              Sample.ifoOpen Sample.stoi 1000 ["ifo2mkv"; "VIDEO_TS"]%string _ eq_refl)
    as [_ [_ [[[H _] | H] _]]]; [discriminate H | exact H].
Defined.

(** ** Runs of the driver *)

Section DriverRuns.

Variable mt19937_64 : Type.
Variable rnd_draw : mt19937_64 -> Z * mt19937_64.
Variable dvd_reader_t : Type.
Variable DVDOpen2 : string -> option dvd_reader_t.
Variable ifoOpen : dvd_reader_t -> Z -> option ifo_handle_t.
Variable stoi : string -> option Z.
Variable seeded : mt19937_64.

Local Abbreviation xml_writer := (matroska_writer mt19937_64 rnd_draw).
Local Abbreviation walk_xml :=
  (@get_chapters_for_title dvd_reader_t ifoOpen
     (matroska_chapter_xml_writer mt19937_64) xml_writer).
Local Abbreviation run_main :=
  (main mt19937_64 rnd_draw dvd_reader_t DVDOpen2 ifoOpen stoi seeded).
Local Abbreviation all_titles :=
  (titles_loop mt19937_64 rnd_draw dvd_reader_t ifoOpen).

(** X12.  Argument errors end the run before the disc is touched, with
    status 1, nothing on the output and one diagnostic line: the usage text,
    with the program name, when the program name is followed by no argument
    or by more than two; the refusal of a negative title; or the report that
    the title is no integer.  The result is the same whatever the provider
    would have answered.  A run without even a program name ([argc] 0) has no
    defined result. *)
Theorem main_argument_errors :
  (forall argv0 rest,
      List.length rest <> 1%nat -> List.length rest <> 2%nat ->
      run_main (argv0 :: rest) = failed [Usage argv0])
  /\ run_main [] = None
  /\ (forall argv0 path arg,
        stoi arg = None ->
        run_main [argv0; path; arg] = failed [Could_not_convert arg])
  /\ (forall argv0 path arg s,
        stoi arg = Some s -> s < 0 ->
        run_main [argv0; path; arg] = failed [Title_cannot_be_negative]).
Proof.
  split; [|split; [reflexivity|split]].
  - intros argv0 rest H1 H2. unfold main.
    destruct (Z.eqb_spec (Z.of_nat (List.length (argv0 :: rest))) 2) as [E|_];
      [cbn [List.length] in E; lia|].
    destruct (Z.eqb_spec (Z.of_nat (List.length (argv0 :: rest))) 3) as [E|_];
      [cbn [List.length] in E; lia|].
    reflexivity.
  - intros argv0 path arg Hs. unfold main, parse_title.
    cbn [List.length List.nth Z.of_nat Pos.of_succ_nat Pos.succ Z.eqb Pos.eqb
         orb negb].
    rewrite Hs. reflexivity.
  - intros argv0 path arg s Hs Hneg. unfold main, parse_title.
    cbn [List.length List.nth Z.of_nat Pos.of_succ_nat Pos.succ Z.eqb Pos.eqb
         orb negb].
    rewrite Hs. destruct (Z.ltb_spec s 0); [reflexivity | lia].
Qed.

(** X13.  When the disc structure or its global table does not open, the
    run ends with status 1 and nothing on the output; the diagnostic names
    the path, or the table 0, and is followed by the logger's report. *)
Theorem main_open_errors :
  forall argv argv0 path,
    (argv = [argv0; path]
     \/ exists arg s, argv = [argv0; path; arg] /\ stoi arg = Some s /\ 0 <= s) ->
    (DVDOpen2 path = None ->
       run_main argv
       = failed [DVD_read_error (Failed_to_open_DVD path);
                 Messages_reported_by_libdvdread])
    /\ (forall dvd,
          DVDOpen2 path = Some dvd -> ifoOpen dvd 0 = None ->
          run_main argv
          = failed [DVD_read_error (Failed_to_open_IFO 0);
                    Messages_reported_by_libdvdread]).
Proof.
  intros argv argv0 path Hargv.
  assert (Hparse : exists title_no,
             run_main argv
             = match dvd_open dvd_reader_t DVDOpen2 path with
               | inr ex => failed [DVD_read_error ex; Messages_reported_by_libdvdread]
               | inl dvd =>
                   match ifo_open dvd_reader_t ifoOpen dvd 0 with
                   | inr ex => failed [DVD_read_error ex; Messages_reported_by_libdvdread]
                   | inl vmg =>
                       if title_no =? 0 then
                         leave_scope
                           (all_titles (Z.to_nat (nr_of_srpts (tt_srpt vmg))) dvd vmg 0
                              (writer_ctor seeded []))
                       else if title_no >=? nr_of_srpts (tt_srpt vmg) then
                         failed [Title_requested_but_DVD_has title_no
                                   (nr_of_srpts (tt_srpt vmg));
                                 Messages_reported_by_libdvdread]
                       else
                         leave_scope
                           (walk_xml dvd vmg (to_int32 title_no) (writer_ctor seeded []))
                   end
               end).
  { destruct Hargv as [-> | [arg [s [-> [Hs H0]]]]].
    - exists 0. reflexivity.
    - exists (u32 s). unfold main, parse_title.
      cbn [List.length List.nth Z.of_nat Pos.of_succ_nat Pos.succ Z.eqb Pos.eqb
           orb negb].
      rewrite Hs. destruct (Z.ltb_spec s 0); [lia | reflexivity]. }
  destruct Hparse as [title_no ->]. unfold dvd_open, ifo_open. split.
  - intros ->. reflexivity.
  - intros dvd -> ->. reflexivity.
Qed.





End DriverRuns.

(** A run that needs no disc, and one whose disc is not there. *)
Lemma main_argument_errors_witness :
  Sample.run_main ["ifo2mkv"]%string = failed [Usage "ifo2mkv"]
  /\ Sample.run_main ["ifo2mkv"; "VIDEO_TS"; "-1"]%string
     = failed [Title_cannot_be_negative].
Proof.
  pose proof (main_argument_errors Z Sample.rnd_draw unit Sample.DVDOpen2
                Sample.ifoOpen Sample.stoi 1000) as [Husage [_ [_ Hneg]]].
  split.
  - apply (Husage "ifo2mkv"%string []); discriminate.
  - apply (Hneg "ifo2mkv" "VIDEO_TS" "-1" (-1))%string; [reflexivity | lia].
Defined.

Lemma main_open_errors_witness :
  Sample.run_main ["ifo2mkv"; "nowhere"]%string
  = failed [DVD_read_error (Failed_to_open_DVD "nowhere");
            Messages_reported_by_libdvdread].
Proof.
  apply (main_open_errors Z Sample.rnd_draw unit Sample.DVDOpen2 Sample.ifoOpen
           Sample.stoi 1000 _ "ifo2mkv" "nowhere" (or_introl eq_refl)).
  reflexivity.
Defined.


(** ** Rounding of the converter, size of a cell *)

(** X15.  At the two admissible rates, while [factor * n] fits 32 bits, the
    timestamp is the exact time rounded down: it is never late and less than
    one millisecond early; and it does not decrease when frames are added. *)
Theorem frames_to_timestamp_ms_rounds_down :
  forall n m r,
    r = 25 \/ r = 30 ->
    0 <= n <= m ->
    fps_factor r * m < 2 ^ 32 ->
    r * frames_to_timestamp_ms n r <= fps_factor r * n
      < r * (frames_to_timestamp_ms n r + 1)
    /\ frames_to_timestamp_ms n r <= frames_to_timestamp_ms m r.
Proof.
  intros n m r Hr Hnm Hlt.
  assert (HF : 0 < fps_factor r) by (destruct Hr as [-> | ->]; reflexivity).
  rewrite (frames_to_timestamp_ms_no_wrap n r), (frames_to_timestamp_ms_no_wrap m r)
    by nia.
  split.
  - pose proof (Z.mul_div_le (fps_factor r * n) r ltac:(lia)).
    pose proof (Z.mul_succ_div_gt (fps_factor r * n) r ltac:(lia)). lia.
  - apply Z.div_le_mono; nia.
Qed.

Lemma frames_to_timestamp_ms_rounds_down_witness :
  30 * frames_to_timestamp_ms 350 30 <= 1001 * 350
    < 30 * (frames_to_timestamp_ms 350 30 + 1)
  /\ frames_to_timestamp_ms 350 30 <= frames_to_timestamp_ms 351 30.
Proof.
  apply (frames_to_timestamp_ms_rounds_down 350 351 30);
    [right; reflexivity | lia | vm_compute; reflexivity].
Defined.

Lemma frame_field_bound (dt : dvd_time_t) : 0 <= frame_field dt <= 45.
Proof.
  unfold frame_field.
  rewrite (land_low_byte (frame_u dt) 48), (land_low_byte (frame_u dt) 15)
    by reflexivity.
  assert (Hb : 0 <= frame_u dt mod 256 < 256) by (apply Z.mod_pos_bound; lia).
  pose proof (byte_cases
                (fun b => (0 <=? Z.shiftr (Z.land b 48) 4 * 10 + Z.land b 15)
                          && (Z.shiftr (Z.land b 48) 4 * 10 + Z.land b 15 <=? 45))
                eq_refl _ Hb) as H.
  apply andb_prop in H. destruct H as [H1 H2]. cbv beta in *. lia.
Qed.

Lemma cell_frames_bound (dt : dvd_time_t) : 0 <= cell_frames dt <= 18121995.
Proof.
  split; [apply cell_frames_nonneg|]. unfold cell_frames.
  pose proof (from_bcd_range (hour dt)). pose proof (from_bcd_range (minute dt)).
  pose proof (from_bcd_range (second dt)). pose proof (frame_field_bound dt).
  destruct (cell_fps_admissible dt) as [-> | ->]; lia.
Qed.

Lemma total_frames_bound (cells : list cell_playback_t) :
  0 <= total_frames cells <= 18121995 * Z.of_nat (List.length cells).
Proof.
  induction cells as [|c cells IH]; [cbn; lia|].
  change (total_frames (c :: cells))
    with (cell_frames (playback_time c) + total_frames cells).
  pose proof (cell_frames_bound (playback_time c)).
  cbn [List.length]. lia.
Qed.

(** X16.  Whatever bytes a cell's time record holds, the cell adds at most
    18121995 frames (165 hours, minutes and seconds at 30 fps and a frame
    field of 45), so the subtotal of a chapter of at most 237 cells is the
    exact sum of its cells' frames: [unsigned int] cannot wrap within such a
    chapter. *)
Theorem chapter_subtotal_exact :
  forall n cur_pgc start_cell fps cells,
    cells_from n (cell_playback cur_pgc) start_cell = Some cells ->
    (n <= 237)%nat ->
    Forall (fun c => 0 <= cell_frames (playback_time c) <= 18121995) cells
    /\ cell_loop n cur_pgc start_cell 0 fps
       = Some (total_frames cells, last_fps cells fps).
Proof.
  intros n cur_pgc start_cell fps cells Hcells Hn. split.
  - apply Forall_forall. intros c _. apply cell_frames_bound.
  - rewrite cell_loop_spec, Hcells by lia. rewrite Z.add_0_l, u32_small; [reflexivity|].
    pose proof (total_frames_bound cells) as Hb.
    rewrite (cells_from_length _ _ _ _ Hcells) in Hb. lia.
Qed.

Lemma chapter_subtotal_exact_witness :
  cell_loop 3
    {| program_map := [1; 4];
       cell_playback := [Sample.cell 0 0 3 208; Sample.cell 0 0 6 224;
                         Sample.cell 0 0 1 224; Sample.cell 0 1 0 192] |}
    0 0 0
  = Some (350, 30).
Proof.
  apply (chapter_subtotal_exact 3
           {| program_map := [1; 4];
              cell_playback := [Sample.cell 0 0 3 208; Sample.cell 0 0 6 224;
                                Sample.cell 0 0 1 224; Sample.cell 0 1 0 192] |}
           0 0 [Sample.cell 0 0 3 208; Sample.cell 0 0 6 224; Sample.cell 0 0 1 224]
           eq_refl).
  lia.
Defined.

(** ** The logger *)

Module LoggerFacts.
Import Logger.

Lemma append_nil_r (s : string) : (s ++ "")%string = s.
Proof. induction s as [|c s IH]; cbn; [reflexivity | rewrite IH; reflexivity]. Qed.

Lemma append_assoc (a b c : string) : ((a ++ b) ++ c)%string = (a ++ b ++ c)%string.
Proof. induction a as [|x a IH]; cbn; [reflexivity | rewrite IH; reflexivity]. Qed.

Lemma first_chars_length (n : nat) :
  forall s, String.length (first_chars n s) = Nat.min n (String.length s).
Proof.
  induction n as [|n IH]; intros [|c s]; cbn; try reflexivity.
  rewrite IH. reflexivity.
Qed.

Lemma first_chars_prefix (n : nat) :
  forall s, exists rest, s = (first_chars n s ++ rest)%string.
Proof.
  induction n as [|n IH]; intros s.
  - exists s. destruct s; reflexivity.
  - destruct s as [|c s]; [exists EmptyString; reflexivity|].
    destruct (IH s) as [rest E]. exists rest. cbn. rewrite <- E. reflexivity.
Qed.

Lemma first_chars_all (n : nat) :
  forall s, (String.length s <= n)%nat -> first_chars n s = s.
Proof.
  induction n as [|n IH]; intros [|c s] H; cbn in *; try reflexivity; try lia.
  rewrite IH by lia. reflexivity.
Qed.

Lemma pf_log_report (lvl : dvd_logger_level_t) (formatted : option string)
    (l : libdvdread_logger) :
  do_report_messages_ (pf_log_ lvl formatted l) = do_report_messages_ l.
Proof. destruct formatted; reflexivity. Qed.

Lemma log_all_report (calls : list (dvd_logger_level_t * option string)) :
  forall l, do_report_messages_ (log_all calls l) = do_report_messages_ l.
Proof.
  induction calls as [|c calls IH]; intros l; [reflexivity|].
  unfold log_all in *. cbn [fold_left]. rewrite IH. apply pf_log_report.
Qed.

Lemma report_lines_app (xs ys : list (dvd_logger_level_t * string)) :
  fold_right (fun msg rest => report_line msg ++ rest)%string EmptyString (xs ++ ys)
  = (fold_right (fun msg rest => report_line msg ++ rest)%string EmptyString xs
     ++ fold_right (fun msg rest => report_line msg ++ rest)%string EmptyString ys)%string.
Proof.
  induction xs as [|x xs IH]; cbn [app fold_right]; [reflexivity|].
  rewrite IH, append_assoc. reflexivity.
Qed.

(** X17.  [pf_log_] stores one message per call whose text was formatted:
    the first [sizeof(msg) - 1] = 16383 characters of the text at most, the
    whole text when it is no longer than that; a call whose formatting failed
    stores nothing.
    Messages already stored and the reporting switch are left as they
    were. *)
Theorem pf_log_keeps_buffer_size :
  forall lvl formatted l,
    do_report_messages_ (pf_log_ lvl formatted l) = do_report_messages_ l
    /\ match formatted with
       | None => pf_log_ lvl formatted l = l
       | Some text =>
           exists str rest,
             messages_ (pf_log_ lvl formatted l) = messages_ l ++ [(lvl, str)]
             /\ text = (str ++ rest)%string
             /\ String.length str = Nat.min (String.length text) (msg_size - 1)
             /\ ((String.length text <= msg_size - 1)%nat -> str = text)
       end.
Proof.
  intros lvl formatted l. split; [apply pf_log_report|].
  destruct formatted as [text|]; cbn [pf_log_]; [|reflexivity].
  set (k := Nat.min (String.length text) (msg_size - 1)).
  destruct (first_chars_prefix k text) as [rest E].
  exists (first_chars k text), rest. split; [reflexivity|]. split; [exact E|]. split.
  - rewrite first_chars_length. subst k. lia.
  - intros H. apply first_chars_all. subst k. lia.
Qed.

(** X18.  The logger's report.  Once [disable_report] was called the
    destructor writes nothing, whatever was logged before or is logged after.
    While reporting is on it writes the heading and then one line per stored
    message, in the order of logging: each message logged adds its line,
    [[LEVEL] text], at the end of the report. *)
Theorem logger_report :
  (forall before after l,
      logger_dtor (log_all after (disable_report (log_all before l))) = EmptyString)
  /\ (forall lvl str l,
        do_report_messages_ l = true ->
        logger_dtor (real_log lvl str l)
        = (logger_dtor l ++ "[" ++ lvl_to_str lvl ++ "] " ++ str ++ newline)%string)
  /\ logger_dtor logger_ctor
     = ("Messages reported by libdvdread :" ++ newline)%string.
Proof.
  split; [|split].
  - intros before after l. unfold logger_dtor. rewrite log_all_report. reflexivity.
  - intros lvl str l Hon. unfold logger_dtor. cbn [real_log do_report_messages_ messages_].
    rewrite Hon, report_lines_app. cbn [fold_right].
    unfold report_line at 2. cbn [fst snd].
    rewrite append_nil_r, !append_assoc. reflexivity.
  - reflexivity.
Qed.

End LoggerFacts.

(** A short message is stored whole; a warning logged on a fresh logger is
    the one line of the report. *)
Lemma pf_log_keeps_buffer_size_witness :
  exists str rest,
    Logger.messages_
      (Logger.pf_log_ Logger.DVD_LOGGER_LEVEL_WARN (Some "no CSS"%string)
         Logger.logger_ctor)
    = [(Logger.DVD_LOGGER_LEVEL_WARN, str)]
    /\ "no CSS"%string = (str ++ rest)%string
    /\ String.length str = Nat.min 6 (Logger.msg_size - 1)
    /\ ((6 <= Logger.msg_size - 1)%nat -> str = "no CSS"%string).
Proof.
  exact (proj2 (LoggerFacts.pf_log_keeps_buffer_size Logger.DVD_LOGGER_LEVEL_WARN
                  (Some "no CSS"%string) Logger.logger_ctor)).
Defined.

Lemma logger_report_witness :
  Logger.logger_dtor
    (Logger.real_log Logger.DVD_LOGGER_LEVEL_WARN "no CSS" Logger.logger_ctor)
  = ("Messages reported by libdvdread :" ++ Logger.newline
     ++ "[WARN] no CSS" ++ Logger.newline)%string.
Proof.
  rewrite (proj1 (proj2 LoggerFacts.logger_report) Logger.DVD_LOGGER_LEVEL_WARN
             "no CSS"%string Logger.logger_ctor eq_refl).
  reflexivity.
Defined.

(** ** Identifiers of a run *)

Section RunUids.

Variable mt19937_64 : Type.
Variable rnd_draw : mt19937_64 -> Z * mt19937_64.
Variable dvd_reader_t : Type.
Variable DVDOpen2 : string -> option dvd_reader_t.
Variable ifoOpen : dvd_reader_t -> Z -> option ifo_handle_t.
Variable stoi : string -> option Z.
Variable seeded : mt19937_64.

Local Abbreviation xml_writer := (matroska_writer mt19937_64 rnd_draw).
Local Abbreviation walk_xml :=
  (@get_chapters_for_title dvd_reader_t ifoOpen
     (matroska_chapter_xml_writer mt19937_64) xml_writer).
Local Abbreviation run_main :=
  (main mt19937_64 rnd_draw dvd_reader_t DVDOpen2 ifoOpen stoi seeded).
Local Abbreviation all_titles :=
  (titles_loop mt19937_64 rnd_draw dvd_reader_t ifoOpen).
Local Abbreviation draws_of := (draws mt19937_64 rnd_draw).
Local Abbreviation advance_by := (advance mt19937_64 rnd_draw).

Lemma draws_add (k j : nat) :
  forall g, draws_of (k + j) g = draws_of k g ++ draws_of j (advance_by k g).
Proof.
  induction k as [|k IH]; intros g; [reflexivity|].
  cbn [Nat.add draws advance app]. rewrite IH. reflexivity.
Qed.

Lemma advance_add (k j : nat) :
  forall g, advance_by (k + j) g = advance_by j (advance_by k g).
Proof.
  induction k as [|k IH]; intros g; [reflexivity|].
  cbn [Nat.add advance]. apply IH.
Qed.

(** The identifiers on the stream are the first draws since the seeding, and
    the generator stands right after them. *)
Local Abbreviation fresh_uids :=
  (fun w : matroska_chapter_xml_writer mt19937_64 =>
     exists k, uids (stream_ w) = draws_of k seeded
               /\ rnd_gen_ w = advance_by k seeded).

Lemma walk_keeps_fresh_uids (dvd : dvd_reader_t) (vmg : ifo_handle_t) (title_ix : Z)
    (w w' : matroska_chapter_xml_writer mt19937_64) :
  walk_xml dvd vmg title_ix w = Done w' -> fresh_uids w -> fresh_uids w'.
Proof.
  rewrite get_chapters_for_title_calls.
  destruct (arr_get (title (tt_srpt vmg)) title_ix) as [ti|]; [|discriminate].
  destruct (ifoOpen dvd (title_set_nr ti)) as [vts|]; [|discriminate].
  destruct (loop_timestamps _ vts (vts_ttn ti) 0 0 0) as [ts|]; [|discriminate].
  generalize (title_calls ts) as cs. intros cs [= <-] [k [Eu Eg]].
  destruct (xml_replay_uids mt19937_64 rnd_draw cs w) as [Hu Hg].
  exists (k + List.length (filter draws_uid cs))%nat.
  rewrite Hu, Hg, Eu, Eg, draws_add, advance_add. split; reflexivity.
Qed.

Lemma titles_loop_fresh_uids (dvd : dvd_reader_t) (vmg : ifo_handle_t) (n : nat) :
  forall t w,
    fresh_uids w ->
    match all_titles n dvd vmg t w with
    | Done w' | Thrown _ w' => fresh_uids w'
    | Undefined => True
    end.
Proof.
  induction n as [|n IH]; intros t w Hw; cbn [titles_loop]; [exact Hw|].
  destruct (walk_xml dvd vmg (to_int32 t) w) as [w1|ex w1|] eqn:E; [| |exact I].
  - apply IH. exact (walk_keeps_fresh_uids _ _ _ _ _ E Hw).
  - rewrite (walk_thrown _ _ _ _ _ _ _ _ _ _ E). exact Hw.
Qed.

(** X19.  In every run that ends, the identifiers of the document, edition
    and chapter identifiers in document order, are the first draws of the
    one generator seeded at the start, each draw used once: two identifiers
    of a document are equal only if the generator repeats a value. *)
Theorem main_uids_are_first_draws :
  forall argv r,
    run_main argv = Some r ->
    uids (cout r) = draws_of (List.length (uids (cout r))) seeded.
Proof.
  intros argv r.
  assert (Hlen : forall k g, List.length (draws_of k g) = k).
  { induction k as [|k IH]; intros g; cbn [draws List.length]; [|rewrite IH];
      reflexivity. }
  assert (Hleave : forall o : outcome (matroska_chapter_xml_writer mt19937_64),
            leave_scope o = Some r ->
            match o with
            | Done w | Thrown _ w => fresh_uids w
            | Undefined => True
            end ->
            uids (cout r) = draws_of (List.length (uids (cout r))) seeded).
  { intros [w|ex w|]; cbn [leave_scope]; [| |discriminate];
      intros [= <-] [k [Eu _]]; cbn [cout]; unfold writer_dtor;
      rewrite uids_app, Eu, app_nil_r, Hlen; reflexivity. }
  assert (Hctor : fresh_uids (writer_ctor seeded [])).
  { exists O. split; reflexivity. }
  unfold main, failed.
  destruct (negb _); [destruct argv; [discriminate | intros [= <-]; reflexivity]|].
  destruct (parse_title stoi argv) as [title_no|d]; [|intros [= <-]; reflexivity].
  unfold dvd_open. destruct (DVDOpen2 _) as [dvd|]; [|intros [= <-]; reflexivity].
  unfold ifo_open. destruct (ifoOpen dvd 0) as [vmg|]; [|intros [= <-]; reflexivity].
  destruct (title_no =? 0).
  - intros Hr. apply (Hleave _ Hr).
    exact (titles_loop_fresh_uids dvd vmg _ 0 _ Hctor).
  - destruct (title_no >=? _); [intros [= <-]; reflexivity|].
    intros Hr. apply (Hleave _ Hr).
    destruct (walk_xml dvd vmg (to_int32 title_no) (writer_ctor seeded []))
      as [w|ex w|] eqn:E; [| |exact I].
    + exact (walk_keeps_fresh_uids _ _ _ _ _ E Hctor).
    + rewrite (walk_thrown _ _ _ _ _ _ _ _ _ _ E). exact Hctor.
Qed.

End RunUids.

(** The run over all titles of the sample disc, whose stand-in generator
    counts from 1000: nine identifiers, 1000 to 1008. *)
Lemma main_uids_are_first_draws_witness :
  exists r,
    Sample.run_main ["ifo2mkv"; "VIDEO_TS"]%string = Some r
    /\ uids (cout r) = [1000; 1001; 1002; 1003; 1004; 1005; 1006; 1007; 1008].
Proof.
  eexists. split; [reflexivity|].
  rewrite (main_uids_are_first_draws Z Sample.rnd_draw unit Sample.DVDOpen2
             Sample.ifoOpen Sample.stoi 1000 ["ifo2mkv"; "VIDEO_TS"]%string _ eq_refl).
  reflexivity.
Defined.

(** ** Packed fields *)

(** X20.  On a byte whose two nibbles are decimal digits the decoder loses
    nothing: the tens and units of the decoded value are the nibbles, so
    packing them again gives the byte back, and two such bytes with the same
    value are the same byte. *)
Theorem from_bcd_digits :
  forall b,
    0 <= b < 256 -> b / 16 <= 9 -> b mod 16 <= 9 ->
    from_bcd b / 10 = b / 16
    /\ from_bcd b mod 10 = b mod 16
    /\ 16 * (from_bcd b / 10) + from_bcd b mod 10 = b
    /\ (forall b', 0 <= b' < 256 -> b' / 16 <= 9 -> b' mod 16 <= 9 ->
          from_bcd b' = from_bcd b -> b' = b).
Proof.
  assert (H : forall b, 0 <= b < 256 -> b / 16 <= 9 -> b mod 16 <= 9 ->
                from_bcd b / 10 = b / 16 /\ from_bcd b mod 10 = b mod 16).
  { intros b Hb Hh Hl. rewrite (from_bcd_byte b Hb).
    pose proof (Z.mod_pos_bound b 16 ltac:(lia)).
    assert (0 <= b / 16) by (apply Z.div_pos; lia).
    replace (10 * (b / 16) + b mod 16) with (b mod 16 + (b / 16) * 10) by lia.
    rewrite Z.div_add, Z.mod_add by lia.
    rewrite Z.div_small, Z.mod_small by lia. split; lia. }
  intros b Hb Hh Hl. destruct (H b Hb Hh Hl) as [Ht Hu].
  split; [exact Ht|]. split; [exact Hu|].
  pose proof (Z.div_mod b 16 ltac:(lia)) as Eb.
  split; [lia|].
  intros b' Hb' Hh' Hl' E. destruct (H b' Hb' Hh' Hl') as [Ht' Hu'].
  pose proof (Z.div_mod b' 16 ltac:(lia)) as Eb'.
  rewrite E in Ht', Hu'. lia.
Qed.

(** The byte 0x59. *)
Lemma from_bcd_digits_witness :
  from_bcd 89 / 10 = 5 /\ from_bcd 89 mod 10 = 9.
Proof.
  destruct (from_bcd_digits 89 ltac:(lia) ltac:(vm_compute; discriminate)
              ltac:(vm_compute; discriminate)) as [H1 [H2 _]].
  split; [exact H1 | exact H2].
Defined.

Lemma frame_u_fields_byte (b : Z) :
  0 <= b < 256 ->
  (if Z.shiftr (Z.land b 192) 6 =? 1 then 25 else 30)
  = (if b / 64 =? 1 then 25 else 30)
  /\ Z.shiftr (Z.land b 48) 4 * 10 + Z.land b 15
     = 10 * (b mod 64 / 16) + b mod 16.
Proof.
  intros Hb.
  pose proof (byte_cases
                (fun b => ((if Z.shiftr (Z.land b 192) 6 =? 1 then 25 else 30)
                           =? (if b / 64 =? 1 then 25 else 30))
                          && (Z.shiftr (Z.land b 48) 4 * 10 + Z.land b 15
                              =? 10 * (b mod 64 / 16) + b mod 16))
                eq_refl _ Hb) as H.
  apply andb_prop in H. destruct H as [H1 H2]. cbv beta in *.
  split; apply Z.eqb_eq; assumption.
Qed.

(** X21.  The combined byte splits into two independent fields: the rate
    comes from its two high bits alone and the frame count from its six low
    bits alone.  For a byte [64 * rate_bits + frames] the rate is 25 when
    [rate_bits] is 1 and 30 otherwise, and the frame count is ten times the
    high two bits of [frames] plus its low four bits. *)
Theorem frame_u_fields :
  forall rate_bits frames h m s,
    0 <= rate_bits < 4 -> 0 <= frames < 64 ->
    let dt := {| hour := h; minute := m; second := s;
                 frame_u := 64 * rate_bits + frames |} in
    cell_fps dt = (if rate_bits =? 1 then 25 else 30)
    /\ frame_field dt = 10 * (frames / 16) + frames mod 16.
Proof.
  intros rate_bits frames h m s Hr Hf dt.
  destruct (frame_u_fields_byte (64 * rate_bits + frames) ltac:(lia)) as [H1 H2].
  assert (Ediv : (64 * rate_bits + frames) / 64 = rate_bits).
  { replace (64 * rate_bits + frames) with (frames + rate_bits * 64) by lia.
    rewrite Z.div_add, Z.div_small by lia. lia. }
  assert (Emod : (64 * rate_bits + frames) mod 64 = frames).
  { replace (64 * rate_bits + frames) with (frames + rate_bits * 64) by lia.
    rewrite Z.mod_add, Z.mod_small by lia. reflexivity. }
  assert (Emod16 : (64 * rate_bits + frames) mod 16 = frames mod 16).
  { replace (64 * rate_bits + frames) with (frames + (4 * rate_bits) * 16) by lia.
    apply Z.mod_add. lia. }
  unfold cell_fps, frame_field. subst dt. cbn [frame_u].
  rewrite H1, H2, Ediv, Emod, Emod16. split; reflexivity.
Qed.

(** NTSC rate bits and a frame count of 0x29. *)
Lemma frame_u_fields_witness :
  cell_fps {| hour := 0; minute := 0; second := 0; frame_u := 64 * 3 + 41 |} = 30
  /\ frame_field {| hour := 0; minute := 0; second := 0; frame_u := 64 * 3 + 41 |} = 29.
Proof.
  exact (frame_u_fields 3 41 0 0 0 ltac:(lia) ltac:(lia)).
Defined.
